(** * Browser session, tab registry and element extraction

    A shallow embedding of [src/browser/connection.ts] (the session
    manager and the tab registry) and of the [puppeteer_evaluate] and
    [puppeteer_interactable_elements] cases of [handleToolCall].

    The browser engine (Puppeteer) is not part of the repository.  It is
    represented by a small explicit store: the browsers launched so far,
    their open pages and the observers registered on them.  Whatever the
    engine decides on its own (whether a launch, a navigation or a script
    evaluation succeeds) is an argument of the operation that asks for it.
    Apart from that, a call on a connected browser succeeds, opening a
    page on a browser that is gone is refused, and a browser that is gone
    lists no pages.

    The modules Connection and Extraction take JavaScript numbers at
    their integer values ([Z]), the awaits of ensureBrowser that follow
    the launch as resolving, and elements as HTML elements.  The modules
    Numbers, Awaited and Bounded drop these three restrictions: a tab
    index or a bound is any number, each await after the launch can be
    rejected, and the className of an element need not be a string.
    Strings are ASCII text.  The handler code is the one that builds the
    [button[text*=...]] selectors and the [attributes] object; the other
    copy of the handler differs in the text selector only. *)

From Stdlib Require Import ZArith Ascii String.
From stdpp Require Import base decidable option list strings pretty gmap.

Local Open Scope Z_scope.

(** ** Outcomes of an asynchronous call *)

Inductive Error :=
| NotInitialized                       (* 'Browser not initialized' *)
| CannotCloseLast                      (* 'Cannot close the last remaining tab' *)
| OutOfRange (tabIndex : Z) (count : nat)
| LaunchFailure                        (* puppeteer.launch rejected *)
| NavigationFailure                    (* page.goto rejected *)
| EngineFailure.                       (* any other rejected engine call *)

Inductive Outcome (A : Type) :=
| Returned (a : A)
| Thrown (e : Error).

Arguments Returned {A} a.
Arguments Thrown {A} e.

(** [pages[i]] for a JavaScript number [i] that holds an integer: a
    negative index reads [undefined]. *)
Definition js_index {A} (l : list A) (i : Z) : option A :=
  if i <? 0 then None else l !! Z.to_nat i.

Module Connection.

(** *** The engine *)

(** A page handle records the browser that created it: object identity of
    [Page] values is equality of handles. *)
Record Page := MkPage { page_owner : nat; page_serial : nat }.

#[global] Instance Page_eq_dec : EqDecision Page.
Proof. solve_decision. Defined.

Record BrowserRec := MkBrowserRec {
  connected : bool;            (* browser.connected *)
  open_pages : list nat;       (* serials of the open pages, engine order *)
  next_serial : nat;           (* serial of the next page to open *)
  observers : nat              (* 'disconnected' callbacks registered *)
}.

(** Browsers are numbered in launch order; the list never shrinks. *)
Abbreviation Engine := (list BrowserRec).

(** *** The module-level variables of connection.ts *)

Record Session := MkSession {
  browser : option nat;
  currentPage : option Page;
  disconnectHandlerAttached : bool
}.

Record World := MkWorld { engine : Engine; session : Session }.

Definition initial : World :=
  MkWorld [] (MkSession None None false).

Definition set_currentPage (p : option Page) (s : Session) : Session :=
  MkSession (browser s) p (disconnectHandlerAttached s).

(** *** Engine calls *)

(** [puppeteer.launch]: a new connected browser with [k] pages open. *)
Definition launch (k : nat) (e : Engine) : nat * Engine :=
  (length e, e ++ [MkBrowserRec true (seq 0 k) k 0%nat]).

Definition is_connected (b : nat) (e : Engine) : bool :=
  match e !! b with
  | Some r => connected r
  | None => false
  end.

(** [browser.pages()]: the live enumeration, in engine order. *)
Definition pages (b : nat) (e : Engine) : list Page :=
  match e !! b with
  | Some r => MkPage b <$> open_pages r
  | None => []
  end.

(** [browser.newPage()] rejects on a browser that is gone. *)
Definition newPage (b : nat) (e : Engine) : option (Page * Engine) :=
  match e !! b with
  | Some r =>
      if connected r then
        Some (MkPage b (next_serial r),
              <[b := MkBrowserRec true (open_pages r ++ [next_serial r])
                       (S (next_serial r)) (observers r)]> e)
      else None
  | None => None
  end.

(** [page.close()]. *)
Definition close_page (p : Page) (e : Engine) : Engine :=
  match e !! page_owner p with
  | Some r =>
      <[page_owner p :=
          MkBrowserRec (connected r)
            (filter (λ k, k ≠ page_serial p) (open_pages r))
            (next_serial r) (observers r)]> e
  | None => e
  end.

(** [page.isClosed()]. *)
Definition isClosed (p : Page) (e : Engine) : bool :=
  bool_decide (p ∉ pages (page_owner p) e).

(** [browser.on('disconnected', cb)]. *)
Definition on_disconnected (b : nat) (e : Engine) : Engine :=
  match e !! b with
  | Some r =>
      <[b := MkBrowserRec (connected r) (open_pages r) (next_serial r)
               (S (observers r))]> e
  | None => e
  end.

(** The connection to browser [b] is lost: it is no longer connected and
    its pages are gone. *)
Definition drop_connection (b : nat) (e : Engine) : Engine :=
  match e !! b with
  | Some r => <[b := MkBrowserRec false [] (next_serial r) (observers r)]> e
  | None => e
  end.

(** *** The observer installed by ensureBrowser

    Every registered callback is the same closure over the module
    variables; it does not look at the browser that emitted the event. *)
Definition handler (s : Session) : Session :=
  MkSession None None false.

Definition notify (n : nat) (s : Session) : Session :=
  Nat.iter n handler s.

(** The 'disconnected' event of browser [b], emitted once, when a
    connected browser goes away. *)
Definition disconnect_event (b : nat) (w : World) : World :=
  match engine w !! b with
  | Some r =>
      if connected r then
        MkWorld (drop_connection b (engine w)) (notify (observers r) (session w))
      else w
  | None => w
  end.

(** *** ensureBrowser *)

(** The page that makes the guard of ensureBrowser false, if any:
    [browser && browser.connected && currentPage && !currentPage.isClosed()]. *)
Definition usable_page (w : World) : option Page :=
  match browser (session w), currentPage (session w) with
  | Some b, Some p =>
      if is_connected b (engine w) && negb (isClosed p (engine w))
      then Some p else None
  | _, _ => None
  end.

(** [launched] is the engine's answer to [puppeteer.launch]: [None] when
    it rejects, [Some k] for a browser that starts with [k] pages. *)
Definition ensureBrowser (launched : option nat) (w : World)
  : Outcome Page * World :=
  match usable_page w with
  | Some p => (Returned p, w)
  | None =>
      match launched with
      | None => (Thrown LaunchFailure, w)
      | Some k =>
          let '(b, e1) := launch k (engine w) in
          let e2 :=
            if disconnectHandlerAttached (session w) then e1
            else on_disconnected b e1 in
          match pages b e2 with
          | p :: _ =>
              (Returned p, MkWorld e2 (MkSession (Some b) (Some p) true))
          | [] =>
              match newPage b e2 with
              | Some (p, e3) =>
                  (Returned p, MkWorld e3 (MkSession (Some b) (Some p) true))
              | None =>
                  (Thrown EngineFailure,
                   MkWorld e2 (MkSession (Some b) (currentPage (session w)) true))
              end
          end
      end
  end.

(** *** selectTab *)

Definition out_of_range (tabIndex : Z) (n : nat) : bool :=
  (tabIndex <? 0) || (tabIndex >=? Z.of_nat n).

Definition selectTab (tabIndex : Z) (w : World) : Outcome Page * World :=
  match browser (session w) with
  | None => (Thrown NotInitialized, w)
  | Some b =>
      let ps := pages b (engine w) in
      if out_of_range tabIndex (length ps) then
        (Thrown (OutOfRange tabIndex (length ps)), w)
      else
        match js_index ps tabIndex with
        | Some p =>
            (Returned p,
             MkWorld (engine w) (set_currentPage (Some p) (session w)))
        | None => (Thrown EngineFailure, w)
        end
  end.

(** *** createNewTab *)

(** A JavaScript string is truthy when it is not empty. *)
Definition truthy (s : string) : bool :=
  match s with
  | EmptyString => false
  | String _ _ => true
  end.

(** What [newPage.goto] does: it rejects (network error, timeout), or it
    resolves, with a response that has an HTTP status or with none. *)
Inductive Navigation :=
| GotoRejected
| GotoResolved (status : option Z).

(** [goto] is the engine's answer to [newPage.goto]; it is consulted only
    when a URL is given.  createNewTab does not look at the response. *)
Definition createNewTab (url : option string) (goto : Navigation) (w : World)
  : Outcome Page * World :=
  match browser (session w) with
  | None => (Thrown NotInitialized, w)
  | Some b =>
      match newPage b (engine w) with
      | None => (Thrown EngineFailure, w)
      | Some (p, e1) =>
          let wants_goto :=
            match url with
            | Some u => truthy u
            | None => false
            end in
          match (if wants_goto then goto else GotoResolved None) with
          | GotoRejected =>
              (Thrown NavigationFailure, MkWorld e1 (session w))
          | GotoResolved _ =>
              (Returned p, MkWorld e1 (set_currentPage (Some p) (session w)))
          end
      end
  end.

(** *** closeTab *)

Definition closeTab (tabIndex : Z) (w : World) : Outcome unit * World :=
  match browser (session w) with
  | None => (Thrown NotInitialized, w)
  | Some b =>
      let ps := pages b (engine w) in
      if Z.of_nat (length ps) <=? 1 then (Thrown CannotCloseLast, w)
      else if out_of_range tabIndex (length ps) then
        (Thrown (OutOfRange tabIndex (length ps)), w)
      else
        match js_index ps tabIndex with
        | Some pageToClose =>
            let cur :=
              if decide (Some pageToClose = currentPage (session w)) then
                let newIndex :=
                  if tabIndex <? Z.of_nat (length ps) - 1
                  then tabIndex else tabIndex - 1 in
                js_index ps
                  (if newIndex =? tabIndex then newIndex - 1 else newIndex)
              else currentPage (session w) in
            (Returned tt,
             MkWorld (close_page pageToClose (engine w))
                     (set_currentPage cur (session w)))
        | None => (Thrown EngineFailure, w)
        end
  end.

(** *** closeBrowser *)

(** [browser.close()] tears the connection down.  [emits] says whether
    the engine delivers its 'disconnected' event to the registered
    observers before the promise resolves. *)
Definition closeBrowser (emits : bool) (w : World) : Outcome unit * World :=
  match browser (session w) with
  | None => (Returned tt, w)
  | Some b =>
      let w1 :=
        if emits then disconnect_event b w
        else MkWorld (drop_connection b (engine w)) (session w) in
      (Returned tt,
       MkWorld (engine w1)
               (MkSession None None (disconnectHandlerAttached (session w1))))
  end.

Definition getCurrentPage (w : World) : option Page := currentPage (session w).
Definition getBrowser (w : World) : option nat := browser (session w).

(** *** Everything that can happen to the session *)

Inductive Op :=
| EnsureBrowser (launched : option nat)
| CloseBrowser (emits : bool)
| SelectTab (tabIndex : Z)
| CreateNewTab (url : option string) (goto : Navigation)
| CloseTab (tabIndex : Z)
| Disconnected (b : nat).

Definition step (o : Op) (w : World) : World :=
  match o with
  | EnsureBrowser launched => snd (ensureBrowser launched w)
  | CloseBrowser emits => snd (closeBrowser emits w)
  | SelectTab i => snd (selectTab i w)
  | CreateNewTab url goto => snd (createNewTab url goto w)
  | CloseTab i => snd (closeTab i w)
  | Disconnected b => disconnect_event b w
  end.

Definition run (ops : list Op) (w : World) : World :=
  foldl (λ acc o, step o acc) w ops.

(** Tab creations and closures only. *)
Definition tab_op (o : Op) : bool :=
  match o with
  | CreateNewTab _ _ | CloseTab _ => true
  | _ => false
  end.

(** The number of tabs [browser.pages()] reports for the session's
    browser. *)
Definition tab_count (w : World) : nat :=
  match browser (session w) with
  | Some b => length (pages b (engine w))
  | None => 0
  end.

(** The current-page pointer, when present, points into the browser the
    session holds; without a browser there is no current page. *)
Definition consistent (s : Session) : Prop :=
  (∀ p, currentPage s = Some p → browser s = Some (page_owner p))
  ∧ (browser s = None → currentPage s = None).

(** While the browser of the current page is connected, the current page
    is one of its open pages. *)
Definition current_open (w : World) : Prop :=
  ∀ p, currentPage (session w) = Some p →
       is_connected (page_owner p) (engine w) = true →
       p ∈ pages (page_owner p) (engine w).

(** What the engine guarantees about its own bookkeeping: a page is
    listed once, and every page was opened before the next one to come. *)
Definition wf_browser (r : BrowserRec) : Prop :=
  NoDup (open_pages r) ∧ Forall (λ k, (k < next_serial r)%nat) (open_pages r).

Definition wf_engine (e : Engine) : Prop := Forall wf_browser e.

(** *** Sessions used as examples *)

(** A fresh browser that starts with one tab. *)
Definition one_tab : World := step (EnsureBrowser (Some 1%nat)) initial.

(** Three tabs, the middle one current. *)
Definition three_tabs : World :=
  run [EnsureBrowser (Some 1%nat); CreateNewTab None (GotoResolved None);
       CreateNewTab None (GotoResolved None); SelectTab 1] initial.

(** Two tabs, the first one current and then closed. *)
Definition first_tab_closed : World :=
  run [EnsureBrowser (Some 1%nat); CreateNewTab None (GotoResolved None);
       SelectTab 0; CloseTab 0] initial.

(** The next tool call asks for a page again. *)
Definition relaunched : World :=
  step (EnsureBrowser (Some 1%nat)) first_tab_closed.

(** A browser closed by closeBrowser whose event did not reach the
    observer, and the browser launched after it. *)
Definition reopened : World :=
  run [EnsureBrowser (Some 1%nat); CloseBrowser false;
       EnsureBrowser (Some 1%nat)] initial.

End Connection.

(** ** The puppeteer_evaluate case of handleToolCall *)

Module Evaluate.

Local Open Scope string_scope.

Record ToolResult := MkToolResult { text : string; isError : bool }.

Definition newline : string := String "010"%char EmptyString.

(** [logs.join('\n')]. *)
Fixpoint join (sep : string) (l : list string) : string :=
  match l with
  | [] => EmptyString
  | [s] => s
  | s :: r => s +:+ sep +:+ join sep r
  end.

(** The 'console' callbacks registered on the page.  Each call of the
    handler builds a new closure, told apart from the others by a number
    that no registered callback carries. *)
Abbreviation Listeners := (list nat).

Definition new_closure (ls : Listeners) : nat := S (max_list ls).

(** [page.on('console', l)]. *)
Definition page_on (l : nat) (ls : Listeners) : Listeners := (ls ++ [l])%list.

(** [page.off('console', l)]: the first registration of [l] goes. *)
Fixpoint page_off (l : nat) (ls : Listeners) : Listeners :=
  match ls with
  | [] => []
  | x :: r => if decide (x = l) then r else x :: page_off l r
  end.

(** What [page.evaluate] does with the wrapped script: it resolves with a
    value (given here as its JSON text) after the page has emitted some
    console messages, or it rejects. *)
Inductive Evaluation :=
| Resolved (json : string) (console : list (string * string))
| Rejected (message : string).

Definition consoleListener (message : string * string) : string :=
  fst message +:+ ": " +:+ snd message.

Definition puppeteer_evaluate (answer : Evaluation) (ls : Listeners)
  : ToolResult * Listeners :=
  let l := new_closure ls in
  let ls1 := page_on l ls in
  match answer with
  | Resolved json console =>
      let logs := consoleListener <$> console in
      let ls2 := page_off l ls1 in
      (MkToolResult
         ("Execution result:" +:+ newline +:+ json +:+ newline +:+ newline
            +:+ "Console output:" +:+ newline +:+ join newline logs)
         false,
       ls2)
  | Rejected message =>
      (MkToolResult
         ("Script execution failed: " +:+ message +:+ newline +:+ newline
            +:+ "Possible causes:" +:+ newline
            +:+ "- Syntax error in script" +:+ newline
            +:+ "- Execution timeout" +:+ newline
            +:+ "- Browser security restrictions" +:+ newline
            +:+ "- Serialization issues with complex objects")
         true,
       ls1)
  end.

(** The listeners left on the page by a series of evaluations. *)
Definition evaluate_all (answers : list Evaluation) (ls : Listeners) : Listeners :=
  foldl (λ acc a, snd (puppeteer_evaluate a acc)) ls answers.

End Evaluate.

(** ** The DOM as the extraction script reads it *)

Module Dom.

Local Open Scope string_scope.

(** [window.getComputedStyle(el)], the four properties that are read. *)
Record Style := MkStyle {
  display : string;
  visibility : string;
  opacity : string;
  cursor : string
}.

Local Unset Elimination Schemes.
Inductive Node :=
| ElementNode (tag : string) (attrs : list (string * string)) (css : Style)
              (childNodes : list Node)
| TextNode (data : string).
Local Set Elimination Schemes.

(** One entry of [document.querySelectorAll('*')]: what the script can
    observe of an element. *)
Record Element := MkElement {
  tagName : string;
  attributes : list (string * string);     (* el.attributes, in order *)
  textContent : string;
  computedStyle : Style;
  parentChildren : list string;            (* tagName of parentNode.children *)
  childIndex : nat                         (* position of el among them *)
}.

Fixpoint text_of (n : Node) : string :=
  match n with
  | TextNode s => s
  | ElementNode _ _ _ ks =>
      (fix go (l : list Node) : string :=
         match l with
         | [] => EmptyString
         | k :: r => text_of k +:+ go r
         end) ks
  end.

Definition tag_of (n : Node) : option string :=
  match n with
  | ElementNode t _ _ _ => Some t
  | TextNode _ => None
  end.

(** [parent.children]: the element children only. *)
Definition children_tags (ks : list Node) : list string :=
  omap tag_of ks.

(** Document order: an element, then its descendants, child by child. *)
Fixpoint descend (sibs : list string) (pos : nat) (n : Node) : list Element :=
  match n with
  | TextNode _ => []
  | ElementNode t a c ks =>
      MkElement t a (text_of n) c sibs pos ::
      (fix go (l : list Node) (i : nat) : list Element :=
         match l with
         | [] => []
         | k :: r =>
             (descend (children_tags ks) i k ++
              go r (match k with ElementNode _ _ _ _ => S i | TextNode _ => i end))%list
         end) ks 0%nat
  end.

(** [document.querySelectorAll('*')] for the document whose root is [n]. *)
Definition querySelectorAll (n : Node) : list Element :=
  descend (children_tags [n]) 0 n.

Fixpoint named_item (name : string) (l : list (string * string)) : option string :=
  match l with
  | [] => None
  | (k, v) :: r => if decide (k = name) then Some v else named_item name r
  end.

(** [el.getAttribute(name)]: [null] when the attribute is absent. *)
Definition getAttribute (name : string) (el : Element) : option string :=
  named_item name (attributes el).

Definition hasAttribute (name : string) (el : Element) : bool :=
  bool_decide (is_Some (getAttribute name el)).

(** [el.id] and [el.className] reflect the attribute, empty when absent. *)
Definition id (el : Element) : string := default EmptyString (getAttribute "id" el).
Definition className (el : Element) : string := default EmptyString (getAttribute "class" el).

End Dom.

(** ** The puppeteer_interactable_elements case of handleToolCall *)

Module Extraction.

Import Dom.
Local Open Scope string_scope.

(** *** JavaScript string helpers (on ASCII text) *)

Definition dq : string := String "034"%char EmptyString.
Definition backslash : string := String "092"%char EmptyString.

Fixpoint trimStart (s : string) : string :=
  match s with
  | EmptyString => EmptyString
  | String a r => if Ascii.is_space a then trimStart r else s
  end.

Definition trimEnd (s : string) : string :=
  String.rev (trimStart (String.rev s)).

Definition trim (s : string) : string := trimEnd (trimStart s).

(** [s.split(/\s+/)[0]]: the text before the first run of white space. *)
Fixpoint split_first (s : string) : string :=
  match s with
  | EmptyString => EmptyString
  | String a r =>
      if Ascii.is_space a then EmptyString else String a (split_first r)
  end.

Definition lower (a : ascii) : ascii :=
  let n := nat_of_ascii a in
  if (65 <=? n)%nat && (n <=? 90)%nat then ascii_of_nat (n + 32) else a.

Fixpoint toLowerCase (s : string) : string :=
  match s with
  | EmptyString => EmptyString
  | String a r => String (lower a) (toLowerCase r)
  end.

(** [s.slice(0, n)]. *)
Fixpoint slice0 (n : nat) (s : string) : string :=
  match n, s with
  | S m, String a r => String a (slice0 m r)
  | _, _ => EmptyString
  end.

(** [s.replace(/"/g, '\\"')]. *)
Fixpoint escape_quotes (s : string) : string :=
  match s with
  | EmptyString => EmptyString
  | String a r =>
      if decide (a = "034"%char)
      then backslash +:+ dq +:+ escape_quotes r
      else String a (escape_quotes r)
  end.

Definition truthy (s : string) : bool :=
  match s with
  | EmptyString => false
  | String _ _ => true
  end.

(** Truthiness of a value that is a string or [null]. *)
Definition truthy_opt (o : option string) : bool :=
  match o with
  | Some s => truthy s
  | None => false
  end.

(** [a || b] on such values. *)
Definition js_or (a b : option string) : option string :=
  if truthy_opt a then a else b.

Infix "|||" := js_or (at level 50, left associativity).

(** *** The two filters of the traversal *)

Definition hidden (el : Element) : bool :=
  let style := computedStyle el in
  bool_decide (display style = "none")
  || bool_decide (visibility style = "hidden")
  || bool_decide (opacity style = "0").

Definition interactive_tags : list string :=
  ["A"; "BUTTON"; "INPUT"; "SELECT"; "TEXTAREA"; "DETAILS"; "SUMMARY"; "LABEL"].

Definition interactive_roles : list string :=
  ["button"; "link"; "menuitem"; "tab"; "checkbox"; "radio"; "slider";
   "spinbutton"; "textbox"].

Definition includes (l : list string) (s : string) : bool := bool_decide (s ∈ l).

Definition isInteractable (el : Element) : bool :=
  includes interactive_tags (tagName el)
  || hasAttribute "contenteditable" el
  || hasAttribute "onclick" el || hasAttribute "onmousedown" el
  || hasAttribute "ondblclick" el
  || hasAttribute "onchange" el || hasAttribute "oninput" el
  || (hasAttribute "role" el
      && match getAttribute "role" el with
         | Some r => includes interactive_roles r
         | None => false
         end)
  || hasAttribute "tabindex" el
  || bool_decide (cursor (computedStyle el) = "pointer").

(** *** Selector synthesis *)

(** The first [data-*] attribute with a non-empty value. *)
Fixpoint data_selector (l : list (string * string)) : list string :=
  match l with
  | [] => []
  | (name, value) :: r =>
      if String.prefix "data-" name && truthy value
      then ["[" +:+ name +:+ "=" +:+ dq +:+ value +:+ dq +:+ "]"]
      else data_selector r
  end.

(** [sameTagSibling.indexOf(el) + 1]. *)
Definition nth_of_type (el : Element) : nat :=
  match parentChildren el !! childIndex el with
  | Some t =>
      if decide (t = tagName el) then
        S (length (filter (λ t', t' = tagName el)
                          (take (childIndex el) (parentChildren el))))
      else 0
  | None => 0
  end.

Definition when (b : bool) (s : string) : list string := if b then [s] else [].

Definition selectors (el : Element) : list string :=
  let nameAttr := getAttribute "name" el in
  let typeAttr := getAttribute "type" el in
  let text := trim (textContent el) in
  let firstClass := split_first (trim (className el)) in
  (when (truthy (id el)) ("#" +:+ id el)
   ++ when (truthy_opt nameAttr)
        ("[name=" +:+ dq +:+ default EmptyString nameAttr +:+ dq +:+ "]")
   ++ data_selector (attributes el)
   ++ when (truthy (className el) && truthy firstClass) ("." +:+ firstClass)
   ++ when (truthy_opt typeAttr)
        (toLowerCase (tagName el) +:+ "[type=" +:+ dq
           +:+ default EmptyString typeAttr +:+ dq +:+ "]")
   ++ (if truthy text && (0 <? String.length text)%nat
          && (String.length text <=? 30)%nat
       then
         if decide (tagName el = "BUTTON")
         then ["button[text*=" +:+ dq +:+ escape_quotes text +:+ dq +:+ "]"]
         else if decide (tagName el = "A")
         then ["a[text*=" +:+ dq +:+ escape_quotes text +:+ dq +:+ "]"]
         else []
       else [])
   ++ [toLowerCase (tagName el) +:+ ":nth-of-type("
         +:+ pretty (nth_of_type el) +:+ ")"])%list.

(** *** The record pushed for a match *)

Record InteractiveElement := MkInteractiveElement {
  selector : string;
  description : string;
  tag : string;
  type : option string;
  attributes : list (string * string);
  alternatives : list string
}.

Definition keep (key : string) (v : option string) : list (string * string) :=
  if truthy_opt v then [(key, default EmptyString v)] else [].

Definition describe (el : Element) : InteractiveElement :=
  let sels := selectors el in
  let typeAttr := getAttribute "type" el in
  let hrefAttr := getAttribute "href" el in
  let valueAttr := getAttribute "value" el in
  let text := trim (textContent el) in
  let role := getAttribute "role" el in
  let fallback :=
    tagName el
    +:+ (if truthy_opt typeAttr
         then "[" +:+ default EmptyString typeAttr +:+ "]" else EmptyString)
    +:+ (if truthy_opt role
         then "[" +:+ default EmptyString role +:+ "]" else EmptyString) in
  let desc :=
    Some (slice0 50 text)
    ||| getAttribute "aria-label" el
    ||| getAttribute "title" el
    ||| getAttribute "placeholder" el
    ||| getAttribute "alt" el
    ||| hrefAttr
    ||| valueAttr
    ||| Some fallback in
  MkInteractiveElement
    (default EmptyString (head sels ||| Some (toLowerCase (tagName el))))
    (default EmptyString (desc ||| Some "No description"))
    (tagName el)
    (typeAttr ||| None)
    (keep "href" hrefAttr ++ keep "value" valueAttr
       ++ keep "src" (getAttribute "src" el)
       ++ keep "action" (getAttribute "action" el)
       ++ keep "target" (getAttribute "target" el)
       ++ keep "type" typeAttr ++ keep "name" (getAttribute "name" el))%list
    (take 2 (drop 1 sels)).

(** *** The traversal loop

    [elements] is the array built so far; the loop stops when the node
    list is exhausted or [elements.length < maxElements] fails. *)
Fixpoint scan (includeHidden : bool) (maxElements : Z)
    (allElements : list Element) (elements : list InteractiveElement)
  : list InteractiveElement :=
  match allElements with
  | [] => elements
  | el :: rest =>
      if (Z.of_nat (length elements) <? maxElements)%Z then
        if negb includeHidden && hidden el then
          scan includeHidden maxElements rest elements
        else if negb (isInteractable el) then
          scan includeHidden maxElements rest elements
        else
          scan includeHidden maxElements rest (elements ++ [describe el])
      else elements
  end.

(** [args.includeHidden ?? false] and [args.maxElements ?? 200]. *)
Definition puppeteer_interactable_elements (includeHidden : option bool)
    (maxElements : option Z) (document : Node) : list InteractiveElement :=
  scan (default false includeHidden) (default 200%Z maxElements)
       (querySelectorAll document) [].

(** *** The traversal, said in one sentence

    What the specification calls a match: an element that passes the
    visibility filter (when it applies) and the interactability
    predicate. *)
Definition selected (includeHidden : bool) (el : Element) : bool :=
  negb (negb includeHidden && hidden el) && isInteractable el.

(** The first [maxElements] matches of the document, in document order. *)
Definition first_matches (includeHidden : bool) (maxElements : Z)
    (document : Node) : list Element :=
  take (Z.to_nat maxElements)
       (filter (λ el, selected includeHidden el = true)
               (querySelectorAll document)).

(** The text of the fallback selector for the [n]-th sibling of a tag. *)
Definition nth_of_type_selector (tag : string) (n : nat) : string :=
  toLowerCase tag +:+ ":nth-of-type(" +:+ pretty n +:+ ")".

(** *** A page used as an example *)

Definition shown : Style := MkStyle "block" "visible" "1" "auto".

(** <html><body><button id="go" class="primary">Go</button></body></html> *)
Definition go_button : Node :=
  ElementNode "BUTTON" [("id", "go"); ("class", "primary")] shown
    [TextNode "Go"].

Definition go_page : Node :=
  ElementNode "HTML" [] shown [ElementNode "BODY" [] shown [go_button]].

(** The button as the script sees it on that page. *)
Definition go_element : Element :=
  MkElement "BUTTON" [("id", "go"); ("class", "primary")] "Go" shown
    ["BUTTON"] 0.

(** Whether a selector is an nth-of-type one. *)
Definition mentions_nth_of_type (s : string) : bool :=
  bool_decide (is_Some (String.index 0 ":nth-of-type(" s)).

End Extraction.

(** ** getAllTabs *)

Module Registry.

Import Connection.




End Registry.

(** ** The puppeteer_navigate and puppeteer_screenshot cases of
    handleToolCall *)

Module Handlers.

Local Open Scope string_scope.

Definition newline : string := String "010"%char EmptyString.

(** What [page.goto] resolves with: [null], or a response. *)
Inductive Response :=
| NoResponse
| HttpResponse (status : Z) (statusText : string).

(** What [page.goto] does: it rejects with an error message, or it
    resolves. *)
Inductive Goto :=
| Rejects (message : string)
| Resolves (r : Response).

Record NavigateResult := MkNavigateResult { text : string; isError : bool }.

Definition navigation_failed (errorMessage : string) : NavigateResult :=
  MkNavigateResult
    ("Navigation failed: " +:+ errorMessage +:+ newline
       +:+ "This could be due to:" +:+ newline
       +:+ "- Network connectivity issues" +:+ newline
       +:+ "- Site blocking automated access" +:+ newline
       +:+ "- Page requiring authentication" +:+ newline
       +:+ "- Navigation timeout" +:+ newline +:+ newline
       +:+ "Try using a different URL or checking network connectivity.")
    true.

Definition puppeteer_navigate (url : string) (goto : Goto) : NavigateResult :=
  match goto with
  | Rejects message => navigation_failed message
  | Resolves NoResponse =>
      navigation_failed "Navigation failed - no response received"
  | Resolves (HttpResponse status statusText) =>
      if (status >=? 400)%Z then
        navigation_failed
          ("HTTP error: " +:+ pretty status +:+ " " +:+ statusText)
      else
        MkNavigateResult
          ("Successfully navigated to " +:+ url +:+ " (Status: "
             +:+ pretty status +:+ ")")
          false
  end.

(** [state.screenshots], a Map from names to base64 data. *)
Abbreviation Screenshots := (gmap string string).


Definition truthy (s : string) : bool :=
  match s with
  | EmptyString => false
  | String _ _ => true
  end.

Definition truthy_opt (o : option string) : bool :=
  match o with
  | Some s => truthy s
  | None => false
  end.


End Handlers.

(** ** The attributes the extraction copies *)

Module Whitelist.

Definition attribute_names : list string :=
  ["href"; "value"; "src"; "action"; "target"; "type"; "name"]%string.

End Whitelist.

(** ** Counting in a series of evaluations *)

Module EvaluateRuns.

Import Evaluate.

(** Whether [page.evaluate] rejected. *)
Definition rejects (a : Evaluation) : bool :=
  match a with
  | Rejected _ => true
  | Resolved _ _ => false
  end.

End EvaluateRuns.

(** ** JavaScript numbers that need not be integers

    [tabIndex] and [maxElements] are declared as numbers.  The code only
    compares them with array lengths and with 0 and uses them as array
    indices, so a number is represented by what these operations can see
    of it: an integer, a finite number strictly between two consecutive
    integers, NaN, or an infinity. *)

Module Numbers.

Inductive JsNumber :=
| Integer (z : Z)
| Between (z : Z)          (* strictly between [z] and [z + 1]: 2.5 is [Between 2] *)
| NaN
| PosInfinity
| NegInfinity.



(** [x < 0]. *)
Definition negative (x : JsNumber) : bool :=
  match x with
  | Integer z => z <? 0
  | Between z => z <? 0
  | NaN => false
  | PosInfinity => false
  | NegInfinity => true
  end.

(** [x >= n] for an array length [n]. *)
Definition at_least (x : JsNumber) (n : nat) : bool :=
  match x with
  | Integer z => z >=? Z.of_nat n
  | Between z => z >=? Z.of_nat n
  | NaN => false
  | PosInfinity => true
  | NegInfinity => false
  end.

(** [l[x]]: only an integer that is a valid position reads an entry. *)
Definition at_index {A} (l : list A) (x : JsNumber) : option A :=
  match x with
  | Integer z => js_index l z
  | _ => None
  end.


End Numbers.

(** ** connection.ts with more of the engine's answers

    ensureBrowser with the awaits that follow the launch able to reject,
    and selectTab with an index that need not be an integer.  Where
    every await resolves, and for an integer index, they are the
    functions of the module Connection. *)

Module Awaited.

Import Connection Numbers.

(** Whether the awaits of ensureBrowser after [puppeteer.launch] resolve:
    [browser.pages()], [browser.newPage()] (called only when the browser
    starts without a page) and the configuration of the page
    ([setJavaScriptEnabled], [setUserAgent]). *)
Record Awaits := MkAwaits {
  pages_resolves : bool;
  newPage_resolves : bool;
  configure_resolves : bool
}.

Definition all_resolve : Awaits := MkAwaits true true true.

Definition ensureBrowserWith (launched : option nat) (awaits : Awaits)
    (w : World) : Outcome Page * World :=
  match usable_page w with
  | Some p => (Returned p, w)
  | None =>
      match launched with
      | None => (Thrown LaunchFailure, w)
      | Some k =>
          let '(b, e1) := launch k (engine w) in
          let e2 :=
            if disconnectHandlerAttached (session w) then e1
            else on_disconnected b e1 in
          (* browser is assigned, currentPage is not yet *)
          let stale :=
            MkWorld e2 (MkSession (Some b) (currentPage (session w)) true) in
          let configure (p : Page) (e : Engine) :=
            if configure_resolves awaits
            then (Returned p, MkWorld e (MkSession (Some b) (Some p) true))
            else (Thrown EngineFailure,
                  MkWorld e (MkSession (Some b) (Some p) true)) in
          if pages_resolves awaits then
            match pages b e2 with
            | p :: _ => configure p e2
            | [] =>
                if newPage_resolves awaits then
                  match newPage b e2 with
                  | Some (p, e3) => configure p e3
                  | None => (Thrown EngineFailure, stale)
                  end
                else (Thrown EngineFailure, stale)
            end
          else (Thrown EngineFailure, stale)
      end
  end.

(** The errors of selectTab for an index that need not be an integer. *)
Inductive TabError :=
| TabNotInitialized
| TabOutOfRange (tabIndex : JsNumber) (count : nat).

Inductive TabOutcome :=
| TabReturned (page : option Page)       (* [None] is [undefined] *)
| TabThrown (e : TabError).

Definition selectTabNumber (tabIndex : JsNumber) (w : World)
  : TabOutcome * World :=
  match browser (session w) with
  | None => (TabThrown TabNotInitialized, w)
  | Some b =>
      let ps := pages b (engine w) in
      if negative tabIndex || at_least tabIndex (length ps) then
        (TabThrown (TabOutOfRange tabIndex (length ps)), w)
      else
        (TabReturned (at_index ps tabIndex),
         MkWorld (engine w)
                 (set_currentPage (at_index ps tabIndex) (session w)))
  end.

(** The invariant of the session state: a current page belongs to the
    browser the session holds and that browser is live; without a
    browser there is no current page. *)
Definition live_consistent (w : World) : Prop :=
  (∀ p, currentPage (session w) = Some p →
        browser (session w) = Some (page_owner p)
        ∧ is_connected (page_owner p) (engine w) = true)
  ∧ (browser (session w) = None → currentPage (session w) = None).

(** A call on the session: ensureBrowser with the answers to its awaits,
    selectTab with any number, or one of the other operations. *)
Inductive Call :=
| EnsureWith (launched : option nat) (awaits : Awaits)
| SelectNumber (tabIndex : JsNumber)
| Plain (o : Op).

Definition call (c : Call) (w : World) : World :=
  match c with
  | EnsureWith launched awaits => snd (ensureBrowserWith launched awaits w)
  | SelectNumber tabIndex => snd (selectTabNumber tabIndex w)
  | Plain o => step o w
  end.

Definition run_calls (cs : list Call) (w : World) : World :=
  foldl (λ acc c, call c acc) w cs.

(** No await of ensureBrowser after a launch is rejected. *)
Definition awaits_resolve (c : Call) : bool :=
  match c with
  | EnsureWith _ awaits =>
      pages_resolves awaits && newPage_resolves awaits
      && configure_resolves awaits
  | SelectNumber _ => true
  | Plain _ => true
  end.

(** What every run keeps, as long as the awaits resolve. *)
Definition well_kept (w : World) : Prop :=
  wf_engine (engine w) ∧ consistent (session w) ∧ current_open w.

(** The state in which the second browser, launched without an observer,
    has disconnected. *)
Definition second_browser_gone : World := step (Disconnected 1) relaunched.

End Awaited.

(** ** The extraction with a bound that need not be an integer, and with
    elements whose className is not a string *)

Module Bounded.

Import Dom Extraction Numbers.
Local Open Scope string_scope.





(** The candidate selectors when [typeof el.className === 'string'] is
    given: it holds for HTML elements and fails for SVG elements, whose
    className is an object; the class selector is then skipped. *)
Definition selectorsOf (classNameIsString : bool) (el : Element)
  : list string :=
  let nameAttr := getAttribute "name" el in
  let typeAttr := getAttribute "type" el in
  let text := trim (textContent el) in
  let firstClass := split_first (trim (className el)) in
  (when (truthy (id el)) ("#" +:+ id el)
   ++ when (truthy_opt nameAttr)
        ("[name=" +:+ dq +:+ default EmptyString nameAttr +:+ dq +:+ "]")
   ++ data_selector (Dom.attributes el)
   ++ when (classNameIsString && truthy (className el) && truthy firstClass)
        ("." +:+ firstClass)
   ++ when (truthy_opt typeAttr)
        (toLowerCase (tagName el) +:+ "[type=" +:+ dq
           +:+ default EmptyString typeAttr +:+ dq +:+ "]")
   ++ (if truthy text && (0 <? String.length text)%nat
          && (String.length text <=? 30)%nat
       then
         if decide (tagName el = "BUTTON")
         then ["button[text*=" +:+ dq +:+ escape_quotes text +:+ dq +:+ "]"]
         else if decide (tagName el = "A")
         then ["a[text*=" +:+ dq +:+ escape_quotes text +:+ dq +:+ "]"]
         else []
       else [])
   ++ [toLowerCase (tagName el) +:+ ":nth-of-type("
         +:+ pretty (nth_of_type el) +:+ ")"])%list.

(** [selectors[0] || el.tagName.toLowerCase()] and [selectors.slice(1, 3)]. *)
Definition selectorOf (classNameIsString : bool) (el : Element) : string :=
  default EmptyString
    (head (selectorsOf classNameIsString el)
     ||| Some (toLowerCase (tagName el))).

Definition alternativesOf (classNameIsString : bool) (el : Element)
  : list string :=
  take 2 (drop 1 (selectorsOf classNameIsString el)).

End Bounded.

(** * Properties of the session manager and the tab registry *)

Section ConnectionFacts.

Import Connection.

Implicit Types (w : World) (e : Engine) (b : nat) (p : Page) (i : Z).

(** Case analysis on whether a navigation is asked for and how it ends. *)
Ltac case_goto url goto :=
  destruct url as [?u|]; [destruct (truthy u); [destruct goto|]|];
  cbv beta iota zeta.

(** *** Reading the engine *)

Lemma pages_owner b e p : p ∈ pages b e → page_owner p = b.
Proof.
  unfold pages. destruct (e !! b) as [r|]; [|by intros ?%elem_of_nil].
  by intros (k & -> & _)%list_elem_of_fmap.
Qed.

Lemma js_index_elem_of {A} (l : list A) i (x : A) :
  js_index l i = Some x → x ∈ l.
Proof.
  unfold js_index. destruct (i <? 0); [done|].
  intros H. by eapply list_elem_of_lookup_2.
Qed.

Lemma js_index_nat {A} (l : list A) (n : nat) :
  js_index l (Z.of_nat n) = l !! n.
Proof.
  unfold js_index. destruct (Z.ltb_spec (Z.of_nat n) 0); [lia|].
  by rewrite Nat2Z.id.
Qed.

Lemma launch_lookup k e :
  snd (launch k e) !! fst (launch k e)
  = Some (MkBrowserRec true (seq 0 k) k 0%nat).
Proof. unfold launch; simpl. by apply list_lookup_middle. Qed.

Lemma pages_insert b e r :
  (b < length e)%nat → pages b (<[b := r]> e) = MkPage b <$> open_pages r.
Proof.
  intros Hb. unfold pages. by rewrite list_lookup_insert_eq.
Qed.

Lemma lookup_lt_length e b r : e !! b = Some r → (b < length e)%nat.
Proof. apply lookup_lt_Some. Qed.

Lemma newPage_pages b e p e' :
  newPage b e = Some (p, e') →
  page_owner p = b ∧ pages b e' = pages b e ++ [p]
  ∧ is_connected b e = true ∧ length e' = length e.
Proof.
  unfold newPage, is_connected. destruct (e !! b) as [r|] eqn:Hr; [|done].
  destruct (connected r) eqn:Hc; [|done].
  intros [= <- <-]. split; [done|].
  rewrite pages_insert by eauto using lookup_lt_length.
  unfold pages. rewrite Hr. simpl. rewrite fmap_app.
  by rewrite length_insert.
Qed.

Lemma newPage_connected b e :
  is_connected b e = true → is_Some (newPage b e).
Proof.
  unfold is_connected, newPage. destruct (e !! b) as [r|]; [|done].
  intros ->. eauto.
Qed.

(** *** Each operation keeps the session consistent *)

Lemma consistent_cleared flag : consistent (MkSession None None flag).
Proof. split; [by intros p [=]|done]. Qed.

Lemma consistent_pointing b p flag :
  page_owner p = b → consistent (MkSession (Some b) (Some p) flag).
Proof. intros <-. split; [by intros ? [= ->]|by intros [=]]. Qed.

Lemma consistent_set_currentPage (s : Session) b (o : option Page) :
  browser s = Some b →
  (∀ p, o = Some p → page_owner p = b) →
  consistent (set_currentPage o s).
Proof.
  intros Hb Ho. split; simpl.
  - intros p Hp. rewrite Hb. f_equal. symmetry. by apply Ho.
  - by rewrite Hb.
Qed.

Lemma notify_consistent n (s : Session) :
  consistent s → consistent (notify n s).
Proof.
  intros Hs. destruct n as [|n]; [done|].
  unfold notify. simpl. apply consistent_cleared.
Qed.

Lemma disconnect_event_consistent b w :
  consistent (session w) → consistent (session (disconnect_event b w)).
Proof.
  intros Hw. unfold disconnect_event.
  destruct (engine w !! b) as [r|]; [|done].
  destruct (connected r); [|done]. simpl. by apply notify_consistent.
Qed.

(** The browser that ensureBrowser has just launched is connected, so
    opening its first page cannot be refused. *)
Lemma launched_connected k e (flag : bool) :
  is_connected (length e)
    (if flag then snd (launch k e)
     else on_disconnected (length e) (snd (launch k e))) = true.
Proof.
  pose proof (launch_lookup k e) as Hl. simpl in Hl.
  unfold is_connected, on_disconnected. destruct flag.
  - simpl. by rewrite Hl.
  - simpl. rewrite Hl. rewrite list_lookup_insert_eq; [done|].
    rewrite length_app. simpl. lia.
Qed.

Lemma launched_pages k e (flag : bool) :
  pages (length e)
    (if flag then snd (launch k e)
     else on_disconnected (length e) (snd (launch k e)))
  = MkPage (length e) <$> seq 0 k.
Proof.
  pose proof (launch_lookup k e) as Hl. simpl in Hl.
  destruct flag; simpl.
  - unfold pages. by rewrite Hl.
  - unfold on_disconnected. rewrite Hl. rewrite pages_insert; [done|].
    rewrite length_app. simpl. lia.
Qed.

Lemma launched_length k e (flag : bool) :
  length (if flag then snd (launch k e)
          else on_disconnected (length e) (snd (launch k e)))
  = S (length e).
Proof.
  pose proof (launch_lookup k e) as Hl. simpl in Hl.
  destruct flag; simpl.
  - rewrite length_app. simpl. lia.
  - unfold on_disconnected. rewrite Hl, length_insert, length_app. simpl. lia.
Qed.

Lemma ensureBrowser_consistent launched w :
  consistent (session w) →
  consistent (session (snd (ensureBrowser launched w))).
Proof.
  intros Hw. unfold ensureBrowser.
  destruct (usable_page w); [done|].
  destruct launched as [k|]; [|done].
  simpl.
  set (e2 := if disconnectHandlerAttached (session w) then _ else _).
  destruct (pages (length (engine w)) e2) as [|p ps] eqn:Hps.
  - assert (Hc : is_connected (length (engine w)) e2 = true)
      by apply launched_connected.
    destruct (newPage_connected _ _ Hc) as [[p e3] Hn].
    rewrite Hn. simpl.
    apply consistent_pointing.
    by destruct (newPage_pages _ _ _ _ Hn) as [? _].
  - simpl. apply consistent_pointing.
    apply (pages_owner _ e2). rewrite Hps. apply list_elem_of_here.
Qed.

Lemma closeBrowser_consistent emits w :
  consistent (session w) →
  consistent (session (snd (closeBrowser emits w))).
Proof.
  intros Hw. unfold closeBrowser.
  destruct (browser (session w)); [apply consistent_cleared|done].
Qed.

Lemma selectTab_consistent i w :
  consistent (session w) →
  consistent (session (snd (selectTab i w))).
Proof.
  intros Hw. unfold selectTab.
  destruct (browser (session w)) as [b|] eqn:Hb; [|done].
  destruct (out_of_range _ _); [done|].
  destruct (js_index _ i) as [p|] eqn:Hp; [|done]. simpl.
  apply (consistent_set_currentPage _ b); [done|].
  intros ? [= <-]. eauto using pages_owner, js_index_elem_of.
Qed.

Lemma createNewTab_consistent url goto w :
  consistent (session w) →
  consistent (session (snd (createNewTab url goto w))).
Proof.
  intros Hw. unfold createNewTab.
  destruct (browser (session w)) as [b|] eqn:Hb; [|done].
  destruct (newPage b (engine w)) as [[p e1]|] eqn:Hn; [|done].
  assert (Hp : consistent (set_currentPage (Some p) (session w))).
  { apply (consistent_set_currentPage _ b); [done|].
    intros ? [= <-]. by destruct (newPage_pages _ _ _ _ Hn) as [? _]. }
  case_goto url goto; done.
Qed.

Lemma closeTab_consistent i w :
  consistent (session w) →
  consistent (session (snd (closeTab i w))).
Proof.
  intros Hw. unfold closeTab.
  destruct (browser (session w)) as [b|] eqn:Hb; [|done].
  destruct (_ <=? 1); [done|].
  destruct (out_of_range _ _); [done|].
  destruct (js_index _ i) as [q|] eqn:Hq; [|done]. simpl.
  apply (consistent_set_currentPage _ b); [done|].
  intros p. destruct (decide _) as [Heq|Hne].
  - intros Hp. eauto using pages_owner, js_index_elem_of.
  - intros Hp. destruct Hw as [Hw _]. specialize (Hw p Hp).
    rewrite Hb in Hw. by injection Hw as <-.
Qed.

(** As long as every await of ensureBrowser resolves, each operation
    keeps the ownership half of the invariant: a current page, when
    there is one, was created by the browser the session holds, and a
    session without a browser has no current page.  Whether that browser
    is still live is another matter (see [live_consistent]). *)
Lemma session_consistency_preserved (o : Op) w :
  consistent (session w) → consistent (session (step o w)).
Proof.
  intros Hw. destruct o; simpl.
  - by apply ensureBrowser_consistent.
  - by apply closeBrowser_consistent.
  - by apply selectTab_consistent.
  - by apply createNewTab_consistent.
  - by apply closeTab_consistent.
  - by apply disconnect_event_consistent.
Qed.

(** Ownership holds along every such run. *)
Lemma run_consistent ops w :
  consistent (session w) → consistent (session (run ops w)).
Proof.
  revert w. induction ops as [|o ops IH]; intros w Hw; [done|].
  simpl. apply IH. destruct o; simpl;
    eauto using ensureBrowser_consistent, closeBrowser_consistent,
      selectTab_consistent, createNewTab_consistent, closeTab_consistent,
      disconnect_event_consistent.
Qed.

(** *** closeTab *)

Lemma closeTab_cannot_close_last i w b :
  browser (session w) = Some b →
  (length (pages b (engine w)) < 2)%nat →
  closeTab i w = (Thrown CannotCloseLast, w).
Proof.
  intros Hb Hn. unfold closeTab. rewrite Hb.
  destruct (Z.leb_spec (Z.of_nat (length (pages b (engine w)))) 1); [done|lia].
Qed.

(** C1. Whenever closeTab closes the current page, at index [n] of two
    or more tabs, the call succeeds and the pointer lands on the tab
    before it, at index [n - 1], and on nothing for the first tab.  The
    specification, like the comment in the code, expects the tab after
    it, at index [n + 1], unless the last tab is closed. *)
Theorem closeTab_current_selects_previous (n : nat) w b :
  browser (session w) = Some b →
  (2 ≤ length (pages b (engine w)))%nat →
  (n < length (pages b (engine w)))%nat →
  currentPage (session w) = pages b (engine w) !! n →
  ∃ w', closeTab (Z.of_nat n) w = (Returned tt, w')
        ∧ currentPage (session w')
          = match n with
            | O => None
            | S m => pages b (engine w) !! m
            end.
Proof.
  intros Hb Hlen Hlt Hcur. unfold closeTab. rewrite Hb.
  destruct (lookup_lt_is_Some_2 _ _ Hlt) as [q Hq].
  destruct (Z.leb_spec (Z.of_nat (length (pages b (engine w)))) 1); [lia|].
  unfold out_of_range.
  destruct (Z.ltb_spec (Z.of_nat n) 0); [lia|].
  destruct (Z.geb_spec (Z.of_nat n) (Z.of_nat (length (pages b (engine w)))));
    [lia|]. simpl.
  rewrite js_index_nat, Hq. rewrite decide_True by congruence.
  eexists. split; [done|]. simpl.
  assert (Hprev : js_index (pages b (engine w)) (Z.of_nat n - 1)
                  = match n with
                    | O => None
                    | S m => pages b (engine w) !! m
                    end).
  { destruct n as [|m]; [done|].
    replace (Z.of_nat (S m) - 1) with (Z.of_nat m) by lia.
    apply js_index_nat. }
  destruct (Z.ltb_spec (Z.of_nat n) (Z.of_nat (length (pages b (engine w))) - 1)).
  - by rewrite Z.eqb_refl.
  - destruct (Z.eqb_spec (Z.of_nat n - 1) (Z.of_nat n)); [lia|done].
Qed.

(** Three tabs are open and tab 1 is current; closeTab(1) makes the page
    that was tab 0 current. *)
Lemma closeTab_current_selects_previous_witness :
  ∃ w', closeTab 1 three_tabs = (Returned tt, w')
        ∧ currentPage (session w') = Some (MkPage 0 0).
Proof.
  apply (closeTab_current_selects_previous 1 three_tabs 0%nat);
    [reflexivity|vm_compute; lia|vm_compute; lia|reflexivity].
Defined.

Example closeTab_middle_of_three :
  pages 0 (engine three_tabs) = [MkPage 0 0; MkPage 0 1; MkPage 0 2]
  ∧ currentPage (session three_tabs) = Some (MkPage 0 1)
  ∧ fst (closeTab 1 three_tabs) = Returned tt
  ∧ pages 0 (engine (snd (closeTab 1 three_tabs))) = [MkPage 0 0; MkPage 0 2]
  ∧ currentPage (session (snd (closeTab 1 three_tabs))) = Some (MkPage 0 0)
  ∧ currentPage (session (snd (closeTab 1 three_tabs))) ≠ Some (MkPage 0 2).
Proof. by vm_compute. Qed.

(** C10. With exactly one page open, closeTab with an index outside the
    range fails with the cannot-close-last error, not with the
    out-of-range error, and leaves the pages and the session as they
    were. *)
Theorem closeTab_last_tab_before_range_check i w b p :
  browser (session w) = Some b →
  pages b (engine w) = [p] →
  i < 0 ∨ 1 ≤ i →
  closeTab i w = (Thrown CannotCloseLast, w)
  ∧ fst (closeTab i w) ≠ Thrown (OutOfRange i 1).
Proof.
  intros Hb Hp _.
  rewrite (closeTab_cannot_close_last i w b Hb) by (rewrite Hp; simpl; lia).
  done.
Qed.

Lemma closeTab_last_tab_before_range_check_witness :
  closeTab 5 one_tab = (Thrown CannotCloseLast, one_tab)
  ∧ fst (closeTab 5 one_tab) ≠ Thrown (OutOfRange 5 1).
Proof.
  apply (closeTab_last_tab_before_range_check 5 one_tab 0%nat (MkPage 0 0));
    [reflexivity|reflexivity|right; lia].
Defined.

Lemma closeTab_out_of_range i w b :
  browser (session w) = Some b →
  (2 ≤ length (pages b (engine w)))%nat →
  i < 0 ∨ Z.of_nat (length (pages b (engine w))) ≤ i →
  closeTab i w = (Thrown (OutOfRange i (length (pages b (engine w)))), w).
Proof.
  intros Hb Hn Hi. unfold closeTab. rewrite Hb.
  destruct (Z.leb_spec (Z.of_nat (length (pages b (engine w)))) 1); [lia|].
  unfold out_of_range.
  destruct (Z.ltb_spec i 0); [done|].
  destruct (Z.geb_spec i (Z.of_nat (length (pages b (engine w))))); [done|lia].
Qed.

(** *** The engine's bookkeeping stays well formed *)

Lemma wf_engine_insert e b r :
  wf_engine e → wf_browser r → wf_engine (<[b := r]> e).
Proof. intros He Hr. by apply Forall_insert. Qed.

Lemma wf_engine_lookup e b r : wf_engine e → e !! b = Some r → wf_browser r.
Proof. intros He Hr. by eapply Forall_lookup_1. Qed.

Lemma wf_launch k e : wf_engine e → wf_engine (snd (launch k e)).
Proof.
  intros He. apply Forall_app. split; [done|].
  apply Forall_cons. split; [|done]. split; simpl.
  - apply NoDup_seq.
  - apply Forall_forall. intros x Hx%elem_of_seq. lia.
Qed.

Lemma wf_on_disconnected b e : wf_engine e → wf_engine (on_disconnected b e).
Proof.
  intros He. unfold on_disconnected. destruct (e !! b) as [r|] eqn:Hr; [|done].
  apply wf_engine_insert; [done|]. exact (wf_engine_lookup _ _ _ He Hr).
Qed.

Lemma wf_drop_connection b e : wf_engine e → wf_engine (drop_connection b e).
Proof.
  intros He. unfold drop_connection. destruct (e !! b) as [r|]; [|done].
  apply wf_engine_insert; [done|]. split; simpl; [constructor|done].
Qed.

Lemma wf_newPage b e p e' :
  wf_engine e → newPage b e = Some (p, e') → wf_engine e'.
Proof.
  intros He. unfold newPage. destruct (e !! b) as [r|] eqn:Hr; [|done].
  destruct (connected r); [|done]. intros [= <- <-].
  destruct (wf_engine_lookup _ _ _ He Hr) as [Hnd Hlt].
  apply wf_engine_insert; [done|]. split; simpl.
  - apply NoDup_app. split_and!; [done| |apply NoDup_singleton].
    intros x Hx ->%list_elem_of_singleton.
    rewrite Forall_forall in Hlt. specialize (Hlt _ Hx). lia.
  - apply Forall_app. split.
    + eapply Forall_impl; [exact Hlt|]. simpl. lia.
    + apply Forall_singleton. lia.
Qed.

Lemma wf_close_page p e : wf_engine e → wf_engine (close_page p e).
Proof.
  intros He. unfold close_page.
  destruct (e !! page_owner p) as [r|] eqn:Hr; [|done].
  destruct (wf_engine_lookup _ _ _ He Hr) as [Hnd Hlt].
  apply wf_engine_insert; [done|]. split; simpl.
  - by apply NoDup_filter.
  - rewrite Forall_forall in Hlt. apply Forall_forall.
    intros x [_ Hx]%list_elem_of_filter. by apply Hlt.
Qed.

Lemma wf_step (o : Op) w : wf_engine (engine w) → wf_engine (engine (step o w)).
Proof.
  intros He. destruct o as [launched|emits|i|url goto|i|b]; simpl.
  - unfold ensureBrowser. destruct (usable_page w); [done|].
    destruct launched as [k|]; [|done]. simpl.
    set (e2 := if disconnectHandlerAttached (session w) then _ else _).
    assert (He2 : wf_engine e2).
    { subst e2. destruct (disconnectHandlerAttached (session w)).
      - by apply (wf_launch k).
      - apply wf_on_disconnected. by apply (wf_launch k). }
    destruct (pages _ e2); [|done].
    destruct (newPage _ e2) as [[p e3]|] eqn:Hn; [|done].
    simpl. eauto using wf_newPage.
  - unfold closeBrowser. destruct (browser (session w)) as [b|]; [|done].
    destruct emits; simpl; [|by apply wf_drop_connection].
    unfold disconnect_event. destruct (engine w !! b) as [r|]; [|done].
    destruct (connected r); [|done]. simpl. by apply wf_drop_connection.
  - unfold selectTab. destruct (browser (session w)); [|done].
    destruct (out_of_range _ _); [done|]. by destruct (js_index _ _).
  - unfold createNewTab. destruct (browser (session w)) as [b|]; [|done].
    destruct (newPage b (engine w)) as [[p e1]|] eqn:Hn; [|done].
    case_goto url goto; simpl; eauto using wf_newPage.
  - unfold closeTab. destruct (browser (session w)); [|done].
    destruct (_ <=? 1); [done|]. destruct (out_of_range _ _); [done|].
    destruct (js_index _ _); [|done]. simpl. by apply wf_close_page.
  - unfold disconnect_event. destruct (engine w !! b) as [r|]; [|done].
    destruct (connected r); [|done]. simpl. by apply wf_drop_connection.
Qed.

Lemma wf_run ops w : wf_engine (engine w) → wf_engine (engine (run ops w)).
Proof.
  revert w. induction ops as [|o ops IH]; intros w Hw; [done|].
  simpl. apply IH. by apply wf_step.
Qed.

Lemma wf_initial : wf_engine (engine initial).
Proof. constructor. Qed.

(** *** Counting tabs *)

Lemma filter_ne_not_elem (k : nat) (l : list nat) :
  k ∉ l → filter (λ x, x ≠ k) l = l.
Proof.
  induction l as [|x l IH]; [done|]. intros Hk.
  apply not_elem_of_cons in Hk as [Hx Hl].
  rewrite filter_cons_True by congruence. by rewrite IH.
Qed.

Lemma length_filter_ne (k : nat) (l : list nat) :
  NoDup l → k ∈ l → S (length (filter (λ x, x ≠ k) l)) = length l.
Proof.
  induction 1 as [|x l Hx Hnd IH]; [by intros ?%elem_of_nil|].
  intros [->|Hk]%elem_of_cons.
  - rewrite filter_cons_False by (intros Hne; by apply Hne).
    by rewrite filter_ne_not_elem.
  - rewrite filter_cons_True by (intros ->; done). simpl. by rewrite IH.
Qed.

Lemma length_pages_close_page b e p :
  wf_engine e → p ∈ pages b e →
  S (length (pages b (close_page p e))) = length (pages b e).
Proof.
  intros He Hp. pose proof (pages_owner _ _ _ Hp) as Ho.
  unfold close_page. rewrite Ho. revert Hp. unfold pages at 1 3.
  destruct (e !! b) as [r|] eqn:Hr; [|by intros ?%elem_of_nil].
  intros (k & -> & Hk)%list_elem_of_fmap. simpl.
  rewrite pages_insert by eauto using lookup_lt_length. simpl.
  rewrite !length_fmap. apply length_filter_ne; [|done].
  by destruct (wf_engine_lookup _ _ _ He Hr).
Qed.

Lemma createNewTab_tabs url goto w b :
  browser (session w) = Some b →
  browser (session (snd (createNewTab url goto w))) = Some b
  ∧ (length (pages b (engine w))
     ≤ length (pages b (engine (snd (createNewTab url goto w)))))%nat.
Proof.
  intros Hb. unfold createNewTab. rewrite Hb.
  destruct (newPage b (engine w)) as [[p e1]|] eqn:Hn; [|done].
  destruct (newPage_pages _ _ _ _ Hn) as (_ & Hps & _).
  case_goto url goto; simpl; rewrite Hps, length_app; split; (done || lia).
Qed.

Lemma closeTab_tabs i w b :
  browser (session w) = Some b →
  wf_engine (engine w) →
  (1 ≤ length (pages b (engine w)))%nat →
  browser (session (snd (closeTab i w))) = Some b
  ∧ (1 ≤ length (pages b (engine (snd (closeTab i w)))))%nat.
Proof.
  intros Hb He Hn. unfold closeTab. rewrite Hb.
  destruct (Z.leb_spec (Z.of_nat (length (pages b (engine w)))) 1); [done|].
  destruct (out_of_range _ _); [done|].
  destruct (js_index _ i) as [q|] eqn:Hq; [|done]. simpl.
  split; [done|].
  pose proof (length_pages_close_page b (engine w) q He
                (js_index_elem_of _ _ _ Hq)). lia.
Qed.

(** C7. Closing a tab is refused with the cannot-close-last error as
    soon as fewer than two pages are open, whatever the index, and the
    refusal changes nothing; hence no sequence of tab creations and
    closures brings the number of open tabs of the session's browser
    down to zero. *)
Theorem open_tabs_never_reach_zero w b :
  browser (session w) = Some b →
  (∀ i, (length (pages b (engine w)) < 2)%nat →
        closeTab i w = (Thrown CannotCloseLast, w))
  ∧ (wf_engine (engine w) →
     (1 ≤ length (pages b (engine w)))%nat →
     ∀ ops, Forall (λ o, tab_op o = true) ops →
       browser (session (run ops w)) = Some b
       ∧ (1 ≤ length (pages b (engine (run ops w))))%nat).
Proof.
  intros Hb. split.
  - intros i Hn. by apply (closeTab_cannot_close_last i w b).
  - intros He Hn ops. revert w Hb He Hn.
    induction ops as [|o ops IH]; intros w Hb He Hn Hops; [done|].
    apply Forall_cons in Hops as [Ho Hops]. simpl.
    pose proof (wf_step o w He) as He'.
    destruct o as [| | |url goto|i|]; try done; simpl in *.
    + destruct (createNewTab_tabs url goto w b Hb) as [Hb' Hn'].
      apply IH; [done|done|lia|done].
    + destruct (closeTab_tabs i w b Hb He Hn) as [Hb' Hn'].
      by apply IH.
Qed.

Lemma open_tabs_never_reach_zero_witness :
  closeTab 0 one_tab = (Thrown CannotCloseLast, one_tab)
  ∧ (1 ≤ length (pages 0 (engine
       (run [CreateNewTab None (GotoResolved None); CloseTab 0; CloseTab 0; CloseTab 7]
            one_tab))))%nat.
Proof.
  destruct (open_tabs_never_reach_zero one_tab 0%nat eq_refl) as [Hclose Hrun].
  split.
  - apply Hclose. vm_compute. lia.
  - apply Hrun.
    + exact (wf_step (EnsureBrowser (Some 1%nat)) initial wf_initial).
    + vm_compute. lia.
    + repeat constructor.
Defined.

(** *** createNewTab when the navigation fails *)

Lemma newPage_fresh b e p e' :
  wf_engine e → newPage b e = Some (p, e') → p ∉ pages b e.
Proof.
  intros He. unfold newPage, pages.
  destruct (e !! b) as [r|] eqn:Hr; [|done].
  destruct (connected r); [|done]. intros [= <- _].
  intros (k & [= Hk] & Hin)%list_elem_of_fmap.
  destruct (wf_engine_lookup _ _ _ He Hr) as [_ Hlt].
  rewrite Forall_forall in Hlt. specialize (Hlt _ Hin). lia.
Qed.

(** C3, as the code has it.  When a URL is given and page.goto rejects,
    createNewTab throws the navigation failure; the tab it opened stays
    open, last in the enumeration, and the session (the current page in
    particular) is what it was before the call.  When page.goto resolves,
    whatever the response, the call returns the new tab and makes it the
    current page. *)
Theorem createNewTab_failed_navigation (url : string) w b :
  browser (session w) = Some b →
  is_connected b (engine w) = true →
  wf_engine (engine w) →
  truthy url = true →
  ∃ p e',
    createNewTab (Some url) GotoRejected w
    = (Thrown NavigationFailure, MkWorld e' (session w))
    ∧ pages b e' = pages b (engine w) ++ [p]
    ∧ (p ∉ pages b (engine w))
    ∧ ∀ status,
        createNewTab (Some url) (GotoResolved status) w
        = (Returned p, MkWorld e' (set_currentPage (Some p) (session w))).
Proof.
  intros Hb Hc He Hu. unfold createNewTab. rewrite Hb.
  destruct (newPage_connected _ _ Hc) as [[p e1] Hn]. rewrite Hn, Hu.
  exists p, e1. split; [done|].
  destruct (newPage_pages _ _ _ _ Hn) as (_ & Hps & _).
  split_and!; [done|by eapply newPage_fresh|done].
Qed.

Lemma createNewTab_failed_navigation_witness :
  ∃ p e',
    createNewTab (Some "https://example.invalid/"%string) GotoRejected one_tab
    = (Thrown NavigationFailure, MkWorld e' (session one_tab))
    ∧ pages 0 e' = pages 0 (engine one_tab) ++ [p]
    ∧ (p ∉ pages 0 (engine one_tab))
    ∧ createNewTab (Some "https://example.invalid/"%string)
        (GotoResolved (Some 404)) one_tab
      = (Returned p, MkWorld e' (set_currentPage (Some p) (session one_tab))).
Proof.
  destruct (createNewTab_failed_navigation "https://example.invalid/"
              one_tab 0%nat eq_refl eq_refl
              (wf_step (EnsureBrowser (Some 1%nat)) initial wf_initial)
              eq_refl) as (p & e' & H1 & H2 & H3 & H4).
  exists p, e'. split_and!; [exact H1|exact H2|exact H3|exact (H4 (Some 404))].
Defined.

(** C3, as claimed, fails: one tab is open and current, a second tab is
    created with a URL whose navigation is rejected.  The call throws,
    the second tab is open, but the first tab is still the current
    page. *)
Lemma createNewTab_failed_navigation_not_current :
  let r := createNewTab (Some "https://example.invalid/"%string)
             GotoRejected one_tab in
  fst r = Thrown NavigationFailure
  ∧ pages 0 (engine one_tab) = [MkPage 0 0]
  ∧ pages 0 (engine (snd r)) = [MkPage 0 0; MkPage 0 1]
  ∧ currentPage (session (snd r)) = Some (MkPage 0 0)
  ∧ ¬ (∃ p, (p ∉ pages 0 (engine one_tab))
            ∧ p ∈ pages 0 (engine (snd r))
            ∧ currentPage (session (snd r)) = Some p).
Proof.
  cbv zeta. split_and!; try by vm_compute.
  intros (p & Hnew & _ & Hcur). vm_compute in Hcur. injection Hcur as <-.
  apply Hnew. vm_compute. apply list_elem_of_here.
Qed.

(** An HTTP error is not a failure for createNewTab: the call returns
    and the new tab is current. *)
Lemma createNewTab_http_error_is_current :
  let r := createNewTab (Some "https://example.invalid/"%string)
             (GotoResolved (Some 404)) one_tab in
  fst r = Returned (MkPage 0 1)
  ∧ currentPage (session (snd r)) = Some (MkPage 0 1).
Proof. by vm_compute. Qed.

(** *** The disconnect observer *)

(** Where the observer is attached, the event clears the session. *)
Lemma disconnect_event_observed b w r :
  engine w !! b = Some r → connected r = true → (0 < observers r)%nat →
  session (disconnect_event b w) = MkSession None None false
  ∧ usable_page (disconnect_event b w) = None.
Proof.
  intros Hr Hc Ho. unfold disconnect_event. rewrite Hr, Hc.
  unfold usable_page. simpl. destruct (observers r); [lia|done].
Qed.

(** Where it is not, the event leaves the session as it was. *)
Lemma disconnect_event_unobserved b w r :
  engine w !! b = Some r → observers r = 0%nat →
  session (disconnect_event b w) = session w.
Proof.
  intros Hr Ho. unfold disconnect_event. rewrite Hr.
  destruct (connected r); [|done]. simpl. by rewrite Ho.
Qed.

(** C4. When ensureBrowser has to launch while the flag
    disconnectHandlerAttached is still up, the browser it launches gets
    no disconnect observer, and the disconnect of that browser leaves the
    browser handle and the current page as they were.  The specification
    expects one observer for every browser and both variables cleared. *)
Theorem launch_with_flag_up_attaches_no_observer k w :
  usable_page w = None →
  disconnectHandlerAttached (session w) = true →
  ∃ p w1,
    ensureBrowser (Some k) w = (Returned p, w1)
    ∧ browser (session w1) = Some (length (engine w))
    ∧ currentPage (session w1) = Some p
    ∧ (observers <$> engine w1 !! length (engine w)) = Some 0%nat
    ∧ session (disconnect_event (length (engine w)) w1) = session w1.
Proof.
  intros Hu Hflag. unfold ensureBrowser. rewrite Hu, Hflag.
  cbv beta iota zeta. unfold launch. cbv beta iota zeta.
  pose proof (launch_lookup k (engine w)) as Hl. simpl in Hl.
  pose proof (launched_pages k (engine w) true) as Hps. simpl in Hps.
  rewrite Hps. destruct k as [|k].
  - simpl in Hl |- *. unfold newPage. rewrite Hl. simpl.
    do 2 eexists. split; [done|]. simpl.
    assert (Hlt : (length (engine w) < length (engine w ++
              [MkBrowserRec true [] 0 0]))%nat)
      by (rewrite length_app; simpl; lia).
    split_and!; [done|done|by rewrite list_lookup_insert_eq|].
    eapply disconnect_event_unobserved; simpl;
      [by apply list_lookup_insert_eq|done].
  - simpl in Hl |- *. do 2 eexists. split; [done|]. simpl.
    split_and!; [done|done|by rewrite Hl|].
    eapply disconnect_event_unobserved; simpl; [exact Hl|done].
Qed.

(** The first tab of two is current and gets closed, which leaves no
    current page; the next ensureBrowser launches a second browser. *)
Lemma launch_with_flag_up_attaches_no_observer_witness :
  ∃ p w1,
    ensureBrowser (Some 1%nat) first_tab_closed = (Returned p, w1)
    ∧ browser (session w1) = Some 1%nat
    ∧ currentPage (session w1) = Some p
    ∧ (observers <$> engine w1 !! 1%nat) = Some 0%nat
    ∧ session (disconnect_event 1 w1) = session w1.
Proof.
  exact (launch_with_flag_up_attaches_no_observer 1 first_tab_closed
           eq_refl eq_refl).
Defined.

(** The same run step by step.  The next ensureBrowser after the
    unobserved disconnect does launch again, because it tests
    browser.connected itself, and that third browser has no observer
    either. *)
Example relaunched_browser_has_no_observer :
  currentPage (session first_tab_closed) = None
  ∧ disconnectHandlerAttached (session first_tab_closed) = true
  ∧ browser (session relaunched) = Some 1%nat
  ∧ (observers <$> engine relaunched !! 1%nat) = Some 0%nat
  ∧ browser (session (step (Disconnected 1) relaunched)) = Some 1%nat
  ∧ currentPage (session (step (Disconnected 1) relaunched))
    = Some (MkPage 1 0)
  ∧ is_connected 1 (engine (step (Disconnected 1) relaunched)) = false
  ∧ (observers <$>
       engine (run [Disconnected 1; EnsureBrowser (Some 1%nat)] relaunched)
         !! 2%nat) = Some 0%nat.
Proof. by vm_compute. Qed.

(** The same happens after closeBrowser when the engine's event does not
    reach the observer before the variables are reset: the flag stays
    up. *)
Lemma reopened_browser_has_no_observer :
  browser (session reopened) = Some 1%nat
  ∧ (observers <$> engine reopened !! 1%nat) = Some 0%nat
  ∧ session (step (Disconnected 1) reopened) = session reopened.
Proof. by vm_compute. Qed.

(** *** ensureBrowser on a healthy session *)


Lemma usable_page_intro w b p :
  session w = MkSession (Some b) (Some p) (disconnectHandlerAttached (session w)) →
  is_connected b (engine w) = true →
  p ∈ pages (page_owner p) (engine w) →
  usable_page w = Some p.
Proof.
  intros Hs Hc Hp. unfold usable_page. rewrite Hs. simpl. rewrite Hc.
  unfold isClosed. rewrite bool_decide_false; [done|]. by intros Hn.
Qed.

(** A launch that succeeds ends in a session that the guard accepts. *)
Lemma ensureBrowser_launch k w :
  usable_page w = None →
  ∃ p w1,
    ensureBrowser (Some k) w = (Returned p, w1)
    ∧ length (engine w1) = S (length (engine w))
    ∧ usable_page w1 = Some p.
Proof.
  intros Hu. unfold ensureBrowser. rewrite Hu.
  cbv beta iota zeta. unfold launch at 1. cbv beta iota zeta.
  pose proof (launched_pages k (engine w) (disconnectHandlerAttached (session w))) as Hps.
  pose proof (launched_length k (engine w) (disconnectHandlerAttached (session w))) as Hlen.
  pose proof (launched_connected k (engine w) (disconnectHandlerAttached (session w))) as Hc.
  simpl in Hps, Hlen, Hc.
  set (e2 := if disconnectHandlerAttached (session w) then _ else _) in *.
  destruct (pages (length (engine w)) e2) as [|p ps] eqn:Hp.
  - destruct (newPage_connected _ _ Hc) as [[p e3] Hn]. rewrite Hn.
    destruct (newPage_pages _ _ _ _ Hn) as (Ho & Hps' & _ & Hlen').
    exists p, (MkWorld e3 (MkSession (Some (length (engine w))) (Some p) true)).
    split_and!; [done|simpl; lia|].
    apply (usable_page_intro _ (length (engine w))); simpl; [done| |].
    + revert Hn. unfold newPage, is_connected.
      destruct (e2 !! length (engine w)) as [r|] eqn:Hr; [|done].
      destruct (connected r); [|done]. intros [= _ <-].
      rewrite list_lookup_insert_eq; [done|]. by eapply lookup_lt_length.
    + rewrite Ho, Hps'. apply elem_of_app. right. apply list_elem_of_here.
  - exists p, (MkWorld e2 (MkSession (Some (length (engine w))) (Some p) true)).
    split_and!; [done|done|].
    assert (Hin : p ∈ pages (length (engine w)) e2)
      by (rewrite Hp; apply list_elem_of_here).
    apply (usable_page_intro _ (length (engine w))); simpl; [done|done|].
    by rewrite (pages_owner _ _ _ Hin).
Qed.



(** *** The current page of a connected browser is open *)

Lemma usable_page_open w p :
  usable_page w = Some p →
  currentPage (session w) = Some p ∧ p ∈ pages (page_owner p) (engine w).
Proof.
  unfold usable_page, isClosed.
  destruct (browser (session w)); [|done].
  destruct (currentPage (session w)) as [q|]; [|done].
  destruct (is_connected _ _); [|done]. simpl.
  case_bool_decide as Hq; [done|]. by intros [= <-].
Qed.

Lemma pages_NoDup b e : wf_engine e → NoDup (pages b e).
Proof.
  intros He. unfold pages. destruct (e !! b) as [r|] eqn:Hr; [|constructor].
  destruct (wf_engine_lookup _ _ _ He Hr) as [Hnd _].
  apply NoDup_fmap_2; [|done]. by intros ?? [=].
Qed.

Lemma fmap_filter_page b (k : nat) (l : list nat) :
  MkPage b <$> filter (λ x, x ≠ k) l
  = filter (λ p, p ≠ MkPage b k) (MkPage b <$> l).
Proof.
  induction l as [|x l IH]; [done|]. rewrite fmap_cons, !filter_cons.
  destruct (decide (x ≠ k)) as [Hx|Hx].
  - rewrite decide_True by congruence. by rewrite fmap_cons, IH.
  - apply dec_stable in Hx as ->. by rewrite decide_False by (by intros H).
Qed.

Lemma pages_close_page b e q :
  page_owner q = b →
  pages b (close_page q e) = filter (λ p, p ≠ q) (pages b e).
Proof.
  intros <-. unfold close_page. destruct q as [b k]. simpl.
  unfold pages at 2. destruct (e !! b) as [r|] eqn:Hr.
  - rewrite pages_insert by eauto using lookup_lt_length. simpl.
    apply fmap_filter_page.
  - unfold pages. by rewrite Hr.
Qed.

Lemma is_connected_close_page b e q :
  is_connected b (close_page q e) = is_connected b e.
Proof.
  unfold close_page. destruct (e !! page_owner q) as [r|] eqn:Hr; [|done].
  unfold is_connected. destruct (decide (page_owner q = b)) as [<-|Hne].
  - rewrite list_lookup_insert_eq by eauto using lookup_lt_length.
    by rewrite Hr.
  - by rewrite list_lookup_insert_ne.
Qed.

Lemma is_connected_dropped b e : is_connected b (drop_connection b e) = false.
Proof.
  unfold drop_connection, is_connected. destruct (e !! b) as [r|] eqn:Hr.
  - by rewrite list_lookup_insert_eq by eauto using lookup_lt_length.
  - by rewrite Hr.
Qed.

Lemma lookup_drop_connection_ne b b' e :
  b ≠ b' → drop_connection b' e !! b = e !! b.
Proof.
  intros Hne. unfold drop_connection. destruct (e !! b'); [|done].
  by rewrite list_lookup_insert_ne.
Qed.

Lemma newPage_still_connected b e p e' :
  newPage b e = Some (p, e') → is_connected b e' = true.
Proof.
  unfold newPage, is_connected. destruct (e !! b) as [r|] eqn:Hr; [|done].
  destruct (connected r); [|done]. intros [= _ <-].
  by rewrite list_lookup_insert_eq by eauto using lookup_lt_length.
Qed.

Lemma current_open_pointing e b p flag :
  p ∈ pages b e →
  current_open (MkWorld e (MkSession (Some b) (Some p) flag)).
Proof.
  intros Hp q [= <-] _. simpl. by rewrite (pages_owner _ _ _ Hp).
Qed.

Lemma current_open_cleared e flag :
  current_open (MkWorld e (MkSession None None flag)).
Proof. by intros q [=]. Qed.

Lemma disconnect_event_current_open b w :
  current_open w → current_open (disconnect_event b w).
Proof.
  intros Hw. unfold disconnect_event.
  destruct (engine w !! b) as [r|] eqn:Hr; [|done].
  destruct (connected r); [|done].
  destruct (observers r) as [|n]; [|by intros q [=]].
  intros q Hq. simpl in *. destruct (decide (page_owner q = b)) as [->|Hne].
  - by rewrite is_connected_dropped.
  - unfold is_connected, pages. rewrite lookup_drop_connection_ne by done.
    by apply Hw.
Qed.

(** Together with consistency and the engine's bookkeeping, this is kept
    by every operation: the pointer never dangles in a connected
    browser. *)
Lemma current_open_step (o : Op) w :
  wf_engine (engine w) → consistent (session w) →
  current_open w → current_open (step o w).
Proof.
  intros He [Hown _] Hw.
  destruct o as [launched|emits|i|url goto|i|b]; simpl.
  - unfold ensureBrowser. destruct (usable_page w) eqn:Hu; [done|].
    destruct launched as [k|]; [|done].
    destruct (ensureBrowser_launch k w Hu) as (p & w1 & Heq & _ & Hu1).
    unfold ensureBrowser in Heq. rewrite Hu in Heq. rewrite Heq. simpl.
    destruct (usable_page_open _ _ Hu1) as [Hc Hp].
    intros q Hq _. rewrite Hc in Hq. by injection Hq as <-.
  - unfold closeBrowser. destruct (browser (session w)); [|done].
    by intros q [=].
  - unfold selectTab. destruct (browser (session w)) as [b|]; [|done].
    destruct (out_of_range _ _); [done|].
    destruct (js_index _ i) as [p|] eqn:Hp; [|done]. simpl.
    intros q [= <-] _. simpl.
    pose proof (js_index_elem_of _ _ _ Hp) as Hin.
    by rewrite (pages_owner _ _ _ Hin).
  - unfold createNewTab. destruct (browser (session w)) as [b|] eqn:Hb; [|done].
    destruct (newPage b (engine w)) as [[p e1]|] eqn:Hn; [|done].
    destruct (newPage_pages _ _ _ _ Hn) as (Ho & Hps & Hc & _).
    assert (Hnew : current_open (MkWorld e1 (set_currentPage (Some p) (session w)))).
    { intros q [= <-] _. simpl. rewrite Ho, Hps.
      apply elem_of_app. right. apply list_elem_of_here. }
    assert (Hold : current_open (MkWorld e1 (session w))).
    { intros q Hq _. simpl in *. specialize (Hown q Hq).
      injection Hown as Hqo. rewrite <- Hqo, Hps.
      apply elem_of_app. left. rewrite Hqo. apply Hw; [done|].
      by rewrite <- Hqo. }
    case_goto url goto; done.
  - unfold closeTab. destruct (browser (session w)) as [b|] eqn:Hb; [|done].
    destruct (_ <=? 1); [done|]. destruct (out_of_range _ _); [done|].
    destruct (js_index _ i) as [q|] eqn:Hq; [|done]. simpl.
    pose proof (js_index_elem_of _ _ _ Hq) as Hqin.
    pose proof (pages_owner _ _ _ Hqin) as Hqo.
    intros p Hp Hc. simpl in *. rewrite is_connected_close_page in Hc.
    destruct (decide (Some q = currentPage (session w))) as [Hcur|Hcur].
    + pose proof (js_index_elem_of _ _ _ Hp) as Hpin.
      rewrite (pages_owner _ _ _ Hpin).
      rewrite pages_close_page by done. apply list_elem_of_filter.
      split; [|done]. intros ->.
      (* the page before the closed one is another page *)
      revert Hp Hq. unfold js_index.
      destruct (Z.ltb_spec i 0); [done|].
      destruct (Z.ltb_spec i (Z.of_nat (length (pages b (engine w))) - 1)).
      * rewrite Z.eqb_refl.
        destruct (Z.ltb_spec (i - 1) 0); [done|]. intros Hprev Hthis.
        pose proof (NoDup_lookup _ _ _ _ (pages_NoDup b _ He) Hprev Hthis). lia.
      * destruct (Z.eqb_spec (i - 1) i); [lia|].
        destruct (Z.ltb_spec (i - 1) 0); [done|]. intros Hprev Hthis.
        pose proof (NoDup_lookup _ _ _ _ (pages_NoDup b _ He) Hprev Hthis). lia.
    + specialize (Hown p Hp). injection Hown as Hpo.
      rewrite <- Hpo in Hc |- *. rewrite pages_close_page by done.
      apply list_elem_of_filter. split; [congruence|].
      rewrite Hpo. apply Hw; [done|]. by rewrite <- Hpo.
  - by apply disconnect_event_current_open.
Qed.

End ConnectionFacts.

(** * Properties of the evaluate handler *)

Section EvaluateFacts.

Import Evaluate.

Implicit Types (ls : list nat).

Lemma new_closure_fresh ls : new_closure ls ∉ ls.
Proof.
  intros Hin. apply max_list_elem_of_le in Hin. unfold new_closure in Hin. lia.
Qed.

Lemma page_off_page_on l ls : l ∉ ls → page_off l (page_on l ls) = ls.
Proof.
  unfold page_on. induction ls as [|x ls IH]; intros Hl; simpl.
  - by rewrite decide_True.
  - apply not_elem_of_cons in Hl as [Hx Hls].
    rewrite decide_False by congruence. by rewrite IH.
Qed.

Lemma evaluate_all_cons a answers ls :
  evaluate_all (a :: answers) ls
  = evaluate_all answers (snd (puppeteer_evaluate a ls)).
Proof. done. Qed.

(** When page.evaluate resolves, the listener the call registered is
    removed again: the page keeps the listeners it had. *)
Lemma puppeteer_evaluate_resolved json console ls :
  snd (puppeteer_evaluate (Resolved json console) ls) = ls
  ∧ isError (fst (puppeteer_evaluate (Resolved json console) ls)) = false.
Proof.
  simpl. split; [|done]. apply page_off_page_on, new_closure_fresh.
Qed.

(** C5. When page.evaluate rejects, the handler answers with an error
    result and the listener it registered stays on the page: one
    listener more after every failed evaluation, so a series of [n]
    failed evaluations leaves [n] listeners behind.  The specification
    expects the listeners to be unchanged on this path too. *)
Theorem puppeteer_evaluate_rejected_keeps_listener message ls :
  isError (fst (puppeteer_evaluate (Rejected message) ls)) = true
  ∧ snd (puppeteer_evaluate (Rejected message) ls) = ls ++ [new_closure ls]
  ∧ (new_closure ls ∉ ls)
  ∧ ∀ n, length (evaluate_all (replicate n (Rejected message)) ls)
         = (length ls + n)%nat.
Proof.
  split_and!; [done|done|apply new_closure_fresh|].
  intros n. revert ls. induction n as [|n IH]; intros ls.
  - simpl. lia.
  - change (replicate (S n) (Rejected message))
      with (Rejected message :: replicate n (Rejected message)).
    rewrite evaluate_all_cons, IH. simpl. unfold page_on.
    rewrite length_app. simpl. lia.
Qed.

End EvaluateFacts.

(** * Properties of the element extraction *)

Section ExtractionFacts.

Import Dom Extraction.
Local Open Scope string_scope.

Implicit Types (el : Element) (all : list Element) (m : Z) (h : bool).

Lemma selected_cases h el :
  selected h el
  = (if negb h && hidden el then false
     else if negb (isInteractable el) then false else true).
Proof.
  unfold selected. by destruct (negb h && hidden el), (isInteractable el).
Qed.

(** The loop appends to what it has the first matches that still fit. *)
Lemma scan_acc h m all (acc : list InteractiveElement) :
  scan h m all acc
  = (acc ++ (describe <$>
      take (Z.to_nat m - length acc)
           (filter (λ el, selected h el = true) all)))%list.
Proof.
  revert acc. induction all as [|el all IH]; intros acc; simpl.
  - by rewrite filter_nil, take_nil, fmap_nil, app_nil_r.
  - destruct (Z.ltb_spec (Z.of_nat (length acc)) m) as [Hlt|Hge].
    + rewrite filter_cons, selected_cases.
      destruct (negb h && hidden el); [by rewrite IH|].
      destruct (negb (isInteractable el)); [by rewrite IH|].
      rewrite decide_True by done. rewrite IH, length_app. simpl.
      replace (Z.to_nat m - length acc)%nat
        with (S (Z.to_nat m - (length acc + 1)))%nat by lia.
      simpl. by rewrite <- app_assoc.
    + replace (Z.to_nat m - length acc)%nat with 0%nat by lia.
      by rewrite take_0, app_nil_r.
Qed.

Lemma puppeteer_interactable_elements_first_matches h m document :
  scan h m (querySelectorAll document) []
  = describe <$> first_matches h m document.
Proof.
  rewrite scan_acc. simpl. unfold first_matches. by rewrite Nat.sub_0_r.
Qed.

Lemma selected_not_hidden el : selected false el = true → hidden el = false.
Proof. unfold selected. simpl. by destruct (hidden el). Qed.

(** For an integer bound: the extraction returns the records of the
    first [maxElements] matches in document order, not the matches among
    the first [maxElements] elements; their number is the smaller of
    [max 0 maxElements] and the number of matches; and without
    includeHidden no record comes from an element whose computed style
    has display none, visibility hidden or opacity 0. *)
Lemma puppeteer_interactable_elements_bounded
    (includeHidden : option bool) (maxElements : option Z) (document : Node) :
  let h := default false includeHidden in
  let m := default 200%Z maxElements in
  let found := filter (λ el, selected h el = true) (querySelectorAll document) in
  puppeteer_interactable_elements includeHidden maxElements document
  = describe <$> first_matches h m document
  ∧ length (puppeteer_interactable_elements includeHidden maxElements document)
    = Nat.min (Z.to_nat m) (length found)
  ∧ (Z.of_nat (length (puppeteer_interactable_elements includeHidden maxElements document))
     ≤ Z.max 0 m)%Z
  ∧ Forall (λ el, hidden el = false) (first_matches false m document).
Proof.
  intros h m found. unfold puppeteer_interactable_elements. fold h m.
  rewrite puppeteer_interactable_elements_first_matches.
  assert (Hlen : length (describe <$> first_matches h m document)
                 = Nat.min (Z.to_nat m) (length found)).
  { unfold first_matches. by rewrite length_fmap, length_take. }
  split_and!; [done|done|lia|].
  unfold first_matches. apply Forall_take, Forall_forall.
  intros el [Hsel _]%list_elem_of_filter. by apply selected_not_hidden.
Qed.

(** Scanning goes on past elements that do not match: with a bound of
    one, the button of the example page is returned although two
    elements come before it. *)
Lemma puppeteer_interactable_elements_scans_past_non_matches :
  length (querySelectorAll go_page) = 3%nat
  ∧ selector <$> puppeteer_interactable_elements None (Some 1%Z) go_page = ["#go"].
Proof. by vm_compute. Qed.

(** *** The example button *)

Lemma button_interactable el : tagName el = "BUTTON" → isInteractable el = true.
Proof. intros Ht. unfold isInteractable. by rewrite Ht. Qed.

(** C6, as the code has it.  For the element
    <button id="go" class="primary">Go</button>, wherever it stands, the
    primary selector is #go and the description is Go; the ranked list
    goes on with .primary, the text selector and the nth-of-type
    fallback, and the alternatives are the two entries after the first:
    .primary and the text selector.  The nth-of-type fallback is the
    fourth entry and is not among the alternatives.  The record is part
    of the result whenever the element is not filtered out as hidden and
    the bound leaves room for all matches. *)
Theorem go_button_record el :
  tagName el = "BUTTON" →
  Dom.attributes el = [("id", "go"); ("class", "primary")] →
  textContent el = "Go" →
  selector (describe el) = "#go"
  ∧ description (describe el) = "Go"
  ∧ selectors el
    = ["#go"; ".primary"; "button[text*=" +:+ dq +:+ "Go" +:+ dq +:+ "]";
       nth_of_type_selector "BUTTON" (nth_of_type el)]
  ∧ alternatives (describe el)
    = [".primary"; "button[text*=" +:+ dq +:+ "Go" +:+ dq +:+ "]"]
  ∧ (∀ n, nth_of_type_selector "BUTTON" n ∉ alternatives (describe el))
  ∧ (∀ h m document,
       el ∈ querySelectorAll document →
       h = true ∨ hidden el = false →
       (length (filter (λ x, selected h x = true) (querySelectorAll document))
        ≤ Z.to_nat m)%nat →
       describe el ∈ scan h m (querySelectorAll document) []).
Proof.
  intros Ht Ha Htxt.
  assert (Hsel : selectors el
    = ["#go"; ".primary"; "button[text*=" +:+ dq +:+ "Go" +:+ dq +:+ "]";
       nth_of_type_selector "BUTTON" (nth_of_type el)]).
  { unfold selectors, id, className, getAttribute. by rewrite Ht, Ha, Htxt. }
  assert (Halt : alternatives (describe el)
    = [".primary"; "button[text*=" +:+ dq +:+ "Go" +:+ dq +:+ "]"]).
  { unfold describe. simpl. by rewrite Hsel. }
  split_and!; [| |done|done| |].
  - unfold describe. simpl. by rewrite Hsel.
  - unfold describe, getAttribute. simpl. by rewrite Ha, Htxt.
  - intros n. rewrite Halt.
    intros [H|H%list_elem_of_singleton]%elem_of_cons; discriminate H.
  - intros h m document Hin Hvis Hroom.
    rewrite puppeteer_interactable_elements_first_matches. unfold first_matches.
    rewrite take_ge by done. apply list_elem_of_fmap_2.
    apply list_elem_of_filter. split; [|done].
    unfold selected. rewrite button_interactable by done.
    destruct Hvis as [->| ->]; [done|]. by destruct h.
Qed.

Lemma go_button_record_witness :
  selector (describe go_element) = "#go"
  ∧ description (describe go_element) = "Go"
  ∧ selectors go_element
    = ["#go"; ".primary"; "button[text*=" +:+ dq +:+ "Go" +:+ dq +:+ "]";
       nth_of_type_selector "BUTTON" (nth_of_type go_element)]
  ∧ alternatives (describe go_element)
    = [".primary"; "button[text*=" +:+ dq +:+ "Go" +:+ dq +:+ "]"]
  ∧ (nth_of_type_selector "BUTTON" 1 ∉ alternatives (describe go_element))
  ∧ describe go_element ∈ scan false 200 (querySelectorAll go_page) [].
Proof.
  destruct (go_button_record go_element eq_refl eq_refl eq_refl)
    as (H1 & H2 & H3 & H4 & H5 & H6).
  split_and!; [exact H1|exact H2|exact H3|exact H4|exact (H5 1%nat)|].
  apply H6.
  - do 2 apply list_elem_of_further. apply list_elem_of_here.
  - right. reflexivity.
  - vm_compute. lia.
Defined.

(** C6, as claimed, fails: on the example page the extraction returns
    one record, for the button, with primary selector #go, description
    Go and two alternatives, .primary and the text selector; none of the
    alternatives is an nth-of-type selector. *)
Lemma go_page_alternatives_without_nth_of_type :
  puppeteer_interactable_elements None None go_page
  = [MkInteractiveElement "#go" "Go" "BUTTON" None []
       [".primary"; "button[text*=" +:+ dq +:+ "Go" +:+ dq +:+ "]"]]
  ∧ existsb mentions_nth_of_type
      [".primary"; "button[text*=" +:+ dq +:+ "Go" +:+ dq +:+ "]"] = false
  ∧ mentions_nth_of_type (nth_of_type_selector "BUTTON" 1) = true.
Proof. by vm_compute. Qed.

End ExtractionFacts.

(** * More on the tab registry *)

Section TabRegistryFacts.

Import Connection.

Implicit Types (w : World) (e : Engine) (b : nat) (p q : Page) (i : Z).

Lemma filter_ne_delete (l : list Page) (n : nat) q :
  NoDup l → l !! n = Some q → filter (λ p, p ≠ q) l = delete n l.
Proof.
  intros Hnd. revert n. induction Hnd as [|x l Hx Hnd IH]; intros n Hn; [done|].
  destruct n as [|n]; simpl in Hn.
  - injection Hn as ->. rewrite filter_cons_False by (intros H; by apply H).
    simpl. clear IH Hnd. induction l as [|y l IH]; [done|].
    apply not_elem_of_cons in Hx as [Hy Hl].
    rewrite filter_cons_True by congruence. by rewrite IH.
  - assert (x ≠ q).
    { intros ->. apply Hx. by apply (list_elem_of_lookup_2 l n q). }
    rewrite filter_cons_True by done. simpl. by rewrite (IH n).
Qed.

(** What a successful closeTab leaves behind. *)
Lemma closeTab_success (n : nat) w b q :
  browser (session w) = Some b →
  (2 ≤ length (pages b (engine w)))%nat →
  pages b (engine w) !! n = Some q →
  closeTab (Z.of_nat n) w
  = (Returned tt,
     MkWorld (close_page q (engine w))
       (set_currentPage
          (if decide (Some q = currentPage (session w))
           then match n with
                | O => None
                | S m => pages b (engine w) !! m
                end
           else currentPage (session w))
          (session w))).
Proof.
  intros Hb Hlen Hq. unfold closeTab. rewrite Hb.
  pose proof (lookup_lt_Some _ _ _ Hq) as Hlt.
  destruct (Z.leb_spec (Z.of_nat (length (pages b (engine w)))) 1); [lia|].
  unfold out_of_range.
  destruct (Z.ltb_spec (Z.of_nat n) 0); [lia|].
  destruct (Z.geb_spec (Z.of_nat n) (Z.of_nat (length (pages b (engine w)))));
    [lia|]. simpl.
  rewrite js_index_nat, Hq. do 3 f_equal.
  destruct (decide _); [|done].
  assert (Hprev : js_index (pages b (engine w)) (Z.of_nat n - 1)
                  = match n with
                    | O => None
                    | S m => pages b (engine w) !! m
                    end).
  { destruct n as [|m]; [done|].
    replace (Z.of_nat (S m) - 1) with (Z.of_nat m) by lia.
    apply js_index_nat. }
  destruct (Z.ltb_spec (Z.of_nat n) (Z.of_nat (length (pages b (engine w))) - 1)).
  - by rewrite Z.eqb_refl.
  - destruct (Z.eqb_spec (Z.of_nat n - 1) (Z.of_nat n)); [lia|done].
Qed.

Lemma selectTab_in_range_aux i w b :
  browser (session w) = Some b →
  0 ≤ i < Z.of_nat (length (pages b (engine w))) →
  ∃ p, pages b (engine w) !! Z.to_nat i = Some p
       ∧ selectTab i w
         = (Returned p,
            MkWorld (engine w) (set_currentPage (Some p) (session w))).
Proof.
  intros Hb [H0 Hlt]. unfold selectTab, out_of_range, js_index. rewrite Hb.
  destruct (Z.ltb_spec i 0); [lia|].
  destruct (Z.geb_spec i (Z.of_nat (length (pages b (engine w))))); [lia|].
  simpl.
  destruct (lookup_lt_is_Some_2 (pages b (engine w)) (Z.to_nat i)) as [p Hp];
    [lia|].
  exists p. by rewrite Hp.
Qed.

(** For an integer index and with a browser held, selectTab succeeds
    exactly inside the live enumeration: it then returns the page at that
    index, makes it current and touches nothing else; otherwise it throws
    the out-of-range error and changes nothing. *)
Lemma selectTab_in_range i w b :
  browser (session w) = Some b →
  (0 ≤ i < Z.of_nat (length (pages b (engine w))) →
   ∃ p, pages b (engine w) !! Z.to_nat i = Some p
        ∧ selectTab i w
          = (Returned p,
             MkWorld (engine w) (set_currentPage (Some p) (session w))))
  ∧ (i < 0 ∨ Z.of_nat (length (pages b (engine w))) ≤ i →
     selectTab i w
     = (Thrown (OutOfRange i (length (pages b (engine w)))), w)).
Proof.
  intros Hb. split; [by apply selectTab_in_range_aux|].
  unfold selectTab, out_of_range, js_index. rewrite Hb.
  - intros [Hneg|Hge].
    + destruct (Z.ltb_spec i 0); [done|lia].
    + destruct (Z.ltb_spec i 0); [done|].
      destruct (Z.geb_spec i (Z.of_nat (length (pages b (engine w)))));
        [done|lia].
Qed.

(** X2. A successful closeTab removes the page at the given index and no
    other: the enumeration afterwards is the old one without that
    position, in the same order.  The closed page is never the current
    page afterwards, and when another page was current it stays
    current. *)
Theorem closeTab_removes_addressed_page (n : nat) w b q :
  browser (session w) = Some b →
  wf_engine (engine w) →
  (2 ≤ length (pages b (engine w)))%nat →
  pages b (engine w) !! n = Some q →
  ∃ w', closeTab (Z.of_nat n) w = (Returned tt, w')
        ∧ browser (session w') = Some b
        ∧ pages b (engine w') = delete n (pages b (engine w))
        ∧ S (length (pages b (engine w'))) = length (pages b (engine w))
        ∧ currentPage (session w') ≠ Some q
        ∧ (currentPage (session w) ≠ Some q →
           currentPage (session w') = currentPage (session w)).
Proof.
  intros Hb He Hlen Hq.
  pose proof (list_elem_of_lookup_2 _ _ _ Hq) as Hin.
  pose proof (pages_owner _ _ _ Hin) as Ho.
  pose proof (pages_NoDup b _ He) as Hnd.
  eexists. split; [by apply closeTab_success|]. simpl.
  split_and!; [done| | | |].
  - rewrite pages_close_page by done. by apply filter_ne_delete.
  - by apply length_pages_close_page.
  - destruct (decide (Some q = currentPage (session w))) as [Hcur|Hcur];
      [|congruence].
    destruct n as [|m]; [done|]. intros Hm.
    pose proof (NoDup_lookup _ _ _ _ Hnd Hm Hq). lia.
  - intros Hne. rewrite decide_False; [done|congruence].
Qed.

Lemma closeTab_removes_addressed_page_witness :
  ∃ w', closeTab 2 three_tabs = (Returned tt, w')
        ∧ browser (session w') = Some 0%nat
        ∧ pages 0 (engine w') = [MkPage 0 0; MkPage 0 1]
        ∧ S (length (pages 0 (engine w'))) = 3%nat
        ∧ currentPage (session w') ≠ Some (MkPage 0 2)
        ∧ currentPage (session w') = Some (MkPage 0 1).
Proof.
  destruct (closeTab_removes_addressed_page 2 three_tabs 0%nat (MkPage 0 2)
              eq_refl (wf_run _ initial wf_initial))
    as (w' & H1 & H2 & H3 & H4 & H5 & H6); [vm_compute; lia|reflexivity|].
  exists w'. split_and!; [exact H1|exact H2|exact H3|exact H4|exact H5|].
  rewrite H6; [reflexivity|]. vm_compute. congruence.
Defined.

(** X3. createNewTab, when no navigation is rejected, opens a page at
    the end of the enumeration, returns it and makes it current; its
    index is the old number of tabs, and selectTab with that index finds
    the same page.  Without a URL, or with an empty one, page.goto is not
    called, so its outcome does not matter. *)
Theorem createNewTab_appends_and_selects (url : option string) status w b :
  browser (session w) = Some b →
  is_connected b (engine w) = true →
  ∃ p e',
    createNewTab url (GotoResolved status) w
    = (Returned p, MkWorld e' (set_currentPage (Some p) (session w)))
    ∧ pages b e' = pages b (engine w) ++ [p]
    ∧ selectTab (Z.of_nat (length (pages b (engine w))))
        (MkWorld e' (set_currentPage (Some p) (session w)))
      = (Returned p, MkWorld e' (set_currentPage (Some p) (session w)))
    ∧ createNewTab None GotoRejected w
      = (Returned p, MkWorld e' (set_currentPage (Some p) (session w)))
    ∧ createNewTab (Some EmptyString) GotoRejected w
      = (Returned p, MkWorld e' (set_currentPage (Some p) (session w))).
Proof.
  intros Hb Hc. unfold createNewTab. rewrite Hb.
  destruct (newPage_connected _ _ Hc) as [[p e1] Hn]. rewrite Hn.
  destruct (newPage_pages _ _ _ _ Hn) as (_ & Hps & _).
  exists p, e1. split_and!; [|done| |done|done].
  - by destruct url as [u|]; [destruct (truthy u)|].
  - set (w1 := MkWorld e1 _).
    destruct (selectTab_in_range_aux (Z.of_nat (length (pages b (engine w)))) w1 b)
      as (p' & Hp' & Hsel); [done| |].
    + simpl. rewrite Hps, length_app. simpl. lia.
    + simpl in Hp'. rewrite Nat2Z.id, Hps in Hp'.
      rewrite list_lookup_middle in Hp' by done. injection Hp' as <-.
      rewrite Hsel. subst w1. simpl. done.
Qed.

Lemma createNewTab_appends_and_selects_witness :
  ∃ p e',
    createNewTab (Some "https://example.org/"%string)
      (GotoResolved (Some 200)) one_tab
    = (Returned p, MkWorld e' (set_currentPage (Some p) (session one_tab)))
    ∧ pages 0 e' = pages 0 (engine one_tab) ++ [p]
    ∧ selectTab 1 (MkWorld e' (set_currentPage (Some p) (session one_tab)))
      = (Returned p, MkWorld e' (set_currentPage (Some p) (session one_tab)))
    ∧ createNewTab None GotoRejected one_tab
      = (Returned p, MkWorld e' (set_currentPage (Some p) (session one_tab)))
    ∧ createNewTab (Some EmptyString) GotoRejected one_tab
      = (Returned p, MkWorld e' (set_currentPage (Some p) (session one_tab))).
Proof.
  exact (createNewTab_appends_and_selects (Some "https://example.org/"%string)
           (Some 200) one_tab 0%nat eq_refl eq_refl).
Defined.

(** *** closeBrowser *)

Lemma pages_dropped b e : pages b (drop_connection b e) = [].
Proof.
  unfold drop_connection, pages. destruct (e !! b) as [r|] eqn:Hr.
  - by rewrite list_lookup_insert_eq by eauto using lookup_lt_length.
  - by rewrite Hr.
Qed.

(** X4. closeBrowser with a browser held returns normally, clears the
    browser handle and the current page and leaves the browser
    disconnected.  Calling it again changes nothing; the tab operations
    then throw the not-initialized error and change nothing; and the next
    ensureBrowser launches a new browser. *)
Theorem closeBrowser_tears_down (emits emits' : bool) w b :
  browser (session w) = Some b →
  ∃ w1,
    closeBrowser emits w = (Returned tt, w1)
    ∧ browser (session w1) = None
    ∧ currentPage (session w1) = None
    ∧ is_connected b (engine w1) = false
    ∧ closeBrowser emits' w1 = (Returned tt, w1)
    ∧ (∀ i, selectTab i w1 = (Thrown NotInitialized, w1))
    ∧ (∀ i, closeTab i w1 = (Thrown NotInitialized, w1))
    ∧ (∀ url goto, createNewTab url goto w1 = (Thrown NotInitialized, w1))
    ∧ (∀ k, ∃ p w2, ensureBrowser (Some k) w1 = (Returned p, w2)
                    ∧ length (engine w2) = S (length (engine w1))).
Proof.
  intros Hb. unfold closeBrowser at 1. rewrite Hb.
  eexists. split; [done|]. simpl.
  split_and!; try done.
  - destruct emits; simpl; [|apply is_connected_dropped].
    unfold disconnect_event. destruct (engine w !! b) as [r|] eqn:Hr.
    + destruct (connected r) eqn:Hc; simpl; [apply is_connected_dropped|].
      unfold is_connected. by rewrite Hr.
    + unfold is_connected. by rewrite Hr.
  - intros k.
    match goal with
    | |- context [ensureBrowser _ ?w1] =>
        destruct (ensureBrowser_launch k w1 eq_refl) as (p & w2 & H1 & H2 & _)
    end.
    by exists p, w2.
Qed.

Lemma closeBrowser_tears_down_witness :
  ∃ w1,
    closeBrowser true three_tabs = (Returned tt, w1)
    ∧ browser (session w1) = None
    ∧ currentPage (session w1) = None
    ∧ is_connected 0 (engine w1) = false
    ∧ closeBrowser false w1 = (Returned tt, w1)
    ∧ selectTab 0 w1 = (Thrown NotInitialized, w1)
    ∧ closeTab 0 w1 = (Thrown NotInitialized, w1)
    ∧ createNewTab None (GotoResolved None) w1 = (Thrown NotInitialized, w1)
    ∧ (∃ p w2, ensureBrowser (Some 1%nat) w1 = (Returned p, w2)
               ∧ length (engine w2) = S (length (engine w1))).
Proof.
  destruct (closeBrowser_tears_down true false three_tabs 0%nat eq_refl)
    as (w1 & H1 & H2 & H3 & H4 & H5 & H6 & H7 & H8 & H9).
  exists w1.
  split_and!; [exact H1|exact H2|exact H3|exact H4|exact H5|exact (H6 0)
              |exact (H7 0)|exact (H8 None (GotoResolved None))
              |exact (H9 1%nat)].
Defined.

(** *** Launching *)

(** What a successful launch leaves behind. *)
Lemma ensureBrowser_launch_session k w :
  usable_page w = None →
  ∃ p w1,
    ensureBrowser (Some k) w = (Returned p, w1)
    ∧ session w1 = MkSession (Some (length (engine w))) (Some p) true
    ∧ (∀ b, (b < length (engine w))%nat → engine w1 !! b = engine w !! b)
    ∧ (observers <$> engine w1 !! length (engine w))
      = Some (if disconnectHandlerAttached (session w) then 0%nat else 1%nat).
Proof.
  intros Hu. unfold ensureBrowser. rewrite Hu.
  cbv beta iota zeta. unfold launch at 1. cbv beta iota zeta.
  pose proof (launch_lookup k (engine w)) as Hl. simpl in Hl.
  pose proof (launched_connected k (engine w)
                (disconnectHandlerAttached (session w))) as Hc.
  simpl in Hc.
  set (r0 := MkBrowserRec true (seq 0 k) k 0) in *.
  set (e2 := if disconnectHandlerAttached (session w) then _ else _) in *.
  assert (Hlen : (length (engine w) < length (engine w ++ [r0]))%nat)
    by (rewrite length_app; simpl; lia).
  assert (Hold : ∀ b, (b < length (engine w))%nat → e2 !! b = engine w !! b).
  { intros b Hb. subst e2. destruct (disconnectHandlerAttached (session w)).
    - by apply lookup_app_l.
    - unfold on_disconnected. rewrite Hl.
      rewrite list_lookup_insert_ne by lia. by apply lookup_app_l. }
  assert (Hobs : (observers <$> e2 !! length (engine w))
                 = Some (if disconnectHandlerAttached (session w)
                         then 0%nat else 1%nat)).
  { subst e2. destruct (disconnectHandlerAttached (session w)).
    - by rewrite Hl.
    - unfold on_disconnected. rewrite Hl.
      by rewrite list_lookup_insert_eq. }
  destruct (pages (length (engine w)) e2) as [|p ps] eqn:Hp.
  - destruct (newPage_connected _ _ Hc) as [[p e3] Hn]. rewrite Hn.
    exists p, (MkWorld e3 (MkSession (Some (length (engine w))) (Some p) true)).
    split; [done|]. split; [done|]. simpl.
    revert Hn Hobs. unfold newPage.
    destruct (e2 !! length (engine w)) as [r|] eqn:Hr; [|done].
    destruct (connected r); [|done]. intros [= _ <-] Hobs. split.
    + intros b Hb. rewrite list_lookup_insert_ne by lia. by apply Hold.
    + rewrite list_lookup_insert_eq by eauto using lookup_lt_length.
      simpl in *. done.
  - exists p, (MkWorld e2 (MkSession (Some (length (engine w))) (Some p) true)).
    by split_and!.
Qed.


(** X6. When ensureBrowser has to launch and the flag
    disconnectHandlerAttached is down, the new browser gets exactly one
    disconnect observer and the flag goes up; the disconnect of that
    browser then clears the browser handle, the current page and the
    flag, so that the next ensureBrowser launches again and attaches an
    observer to the browser it launches. *)
Theorem launch_with_flag_down_attaches_one_observer (k k' : nat) w :
  usable_page w = None →
  disconnectHandlerAttached (session w) = false →
  ∃ p w1,
    ensureBrowser (Some k) w = (Returned p, w1)
    ∧ browser (session w1) = Some (length (engine w))
    ∧ disconnectHandlerAttached (session w1) = true
    ∧ (observers <$> engine w1 !! length (engine w)) = Some 1%nat
    ∧ session (disconnect_event (length (engine w)) w1)
      = MkSession None None false
    ∧ ∃ p' w2,
        ensureBrowser (Some k') (disconnect_event (length (engine w)) w1)
        = (Returned p', w2)
        ∧ browser (session w2) = Some (S (length (engine w)))
        ∧ (observers <$> engine w2 !! S (length (engine w))) = Some 1%nat.
Proof.
  intros Hu Hflag.
  destruct (ensureBrowser_launch_session k w Hu) as (p & w1 & Heq & Hs & _ & Hobs).
  destruct (ensureBrowser_launch k w Hu) as (p0 & w0 & Heq0 & Hlen & Hu1).
  rewrite Heq in Heq0. injection Heq0 as <- <-.
  rewrite Hflag in Hobs.
  exists p, w1. rewrite Hs. simpl. split_and!; [done|done|done|done| |].
  - destruct (engine w1 !! length (engine w)) as [r|] eqn:Hr; [|done].
    injection Hobs as Hobs.
    assert (Hc : connected r = true).
    { destruct (usable_page_open _ _ Hu1) as [_ Hp].
      revert Hu1. unfold usable_page, is_connected. rewrite Hs. simpl.
      rewrite Hr. by destruct (connected r). }
    destruct (disconnect_event_observed _ w1 r Hr Hc) as [Hd _]; [lia|done].
  - destruct (engine w1 !! length (engine w)) as [r|] eqn:Hr; [|done].
    injection Hobs as Hobs.
    assert (Hc : connected r = true).
    { revert Hu1. unfold usable_page, is_connected. rewrite Hs. simpl.
      rewrite Hr. by destruct (connected r). }
    destruct (disconnect_event_observed _ w1 r Hr Hc) as [Hd Hu2]; [lia|].
    destruct (ensureBrowser_launch_session k' _ Hu2)
      as (p' & w2 & Heq2 & Hs2 & _ & Hobs2).
    assert (Hlen2 : length (engine (disconnect_event (length (engine w)) w1))
                    = S (length (engine w))).
    { unfold disconnect_event. rewrite Hr, Hc. simpl.
      unfold drop_connection. rewrite Hr. by rewrite length_insert. }
    rewrite Hlen2, Hd in *. simpl in Hobs2.
    exists p', w2. rewrite Hs2. by split_and!.
Qed.

Lemma launch_with_flag_down_attaches_one_observer_witness :
  ∃ p w1,
    ensureBrowser (Some 1%nat) initial = (Returned p, w1)
    ∧ browser (session w1) = Some 0%nat
    ∧ disconnectHandlerAttached (session w1) = true
    ∧ (observers <$> engine w1 !! 0%nat) = Some 1%nat
    ∧ session (disconnect_event 0 w1) = MkSession None None false
    ∧ ∃ p' w2,
        ensureBrowser (Some 1%nat) (disconnect_event 0 w1) = (Returned p', w2)
        ∧ browser (session w2) = Some 1%nat
        ∧ (observers <$> engine w2 !! 1%nat) = Some 1%nat.
Proof.
  exact (launch_with_flag_down_attaches_one_observer 1 1 initial
           eq_refl eq_refl).
Defined.

(** X7. When the first tab is current and is closed (two or more tabs
    open), no page is current afterwards although the browser is still
    connected and has tabs; the next ensureBrowser therefore launches a
    second browser, and the first one stays connected with its remaining
    tabs. *)
Theorem closing_current_first_tab_relaunches (k : nat) w b :
  browser (session w) = Some b →
  is_connected b (engine w) = true →
  wf_engine (engine w) →
  (2 ≤ length (pages b (engine w)))%nat →
  currentPage (session w) = pages b (engine w) !! 0%nat →
  ∃ w1 p w2,
    closeTab 0 w = (Returned tt, w1)
    ∧ browser (session w1) = Some b
    ∧ currentPage (session w1) = None
    ∧ ensureBrowser (Some k) w1 = (Returned p, w2)
    ∧ browser (session w2) = Some (length (engine w))
    ∧ b ≠ length (engine w)
    ∧ is_connected b (engine w2) = true
    ∧ S (length (pages b (engine w2))) = length (pages b (engine w)).
Proof.
  intros Hb Hc He Hlen Hcur.
  destruct (lookup_lt_is_Some_2 (pages b (engine w)) 0) as [q Hq]; [lia|].
  pose proof (closeTab_success 0 w b q Hb Hlen Hq) as Hclose.
  rewrite decide_True in Hclose by congruence.
  set (w1 := MkWorld (close_page q (engine w))
               (set_currentPage None (session w))) in *.
  assert (Hu : usable_page w1 = None).
  { unfold usable_page. simpl. by destruct (browser (session w)). }
  destruct (ensureBrowser_launch_session k w1 Hu) as (p & w2 & Heq & Hs & Hold & _).
  assert (Hl1 : length (engine w1) = length (engine w)).
  { simpl. unfold close_page. destruct (engine w !! page_owner q); [|done].
    by rewrite length_insert. }
  assert (Hblt : (b < length (engine w))%nat).
  { revert Hc. unfold is_connected.
    destruct (engine w !! b) as [r|] eqn:Hr; [|done].
    intros _. by eapply lookup_lt_length. }
  exists w1, p, w2. rewrite Hs, Hl1.
  split_and!; [done|done|done|done|done|lia| |].
  - unfold is_connected. rewrite Hold by lia.
    pose proof (is_connected_close_page b (engine w) q) as H.
    unfold is_connected in H. simpl. by rewrite H.
  - unfold pages at 1. rewrite Hold by lia.
    change (S (length (pages b (close_page q (engine w))))
            = length (pages b (engine w))).
    apply length_pages_close_page; [done|].
    by eapply list_elem_of_lookup_2.
Qed.

Lemma closing_current_first_tab_relaunches_witness :
  ∃ w1 p w2,
    closeTab 0 (step (SelectTab 0) three_tabs) = (Returned tt, w1)
    ∧ browser (session w1) = Some 0%nat
    ∧ currentPage (session w1) = None
    ∧ ensureBrowser (Some 1%nat) w1 = (Returned p, w2)
    ∧ browser (session w2) = Some 1%nat
    ∧ 0%nat ≠ 1%nat
    ∧ is_connected 0 (engine w2) = true
    ∧ S (length (pages 0 (engine w2))) = 3%nat.
Proof.
  apply (closing_current_first_tab_relaunches 1
           (step (SelectTab 0) three_tabs) 0%nat);
    [reflexivity|reflexivity| |vm_compute; lia|reflexivity].
  exact (wf_run [EnsureBrowser (Some 1%nat); CreateNewTab None (GotoResolved None);
                 CreateNewTab None (GotoResolved None); SelectTab 1; SelectTab 0]
           initial wf_initial).
Defined.

(** When every await resolves, a launching ensureBrowser makes the first
    tab of the new browser current and returns it. *)
Lemma ensureBrowser_first_tab (k : nat) w :
  usable_page w = None →
  ∃ p w1,
    ensureBrowser (Some k) w = (Returned p, w1)
    ∧ browser (session w1) = Some (length (engine w))
    ∧ currentPage (session w1) = Some p
    ∧ currentPage (session w1)
      = pages (length (engine w)) (engine w1) !! 0%nat
    ∧ length (pages (length (engine w)) (engine w1)) = Nat.max 1 k.
Proof.
  intros Hu.
  destruct (ensureBrowser_launch_session k w Hu) as (p & w1 & Heq & Hs & _).
  exists p, w1. rewrite Hs. simpl. split; [done|].
  revert Heq. unfold ensureBrowser. rewrite Hu.
  cbv beta iota zeta. unfold launch at 1. cbv beta iota zeta.
  pose proof (launched_pages k (engine w)
                (disconnectHandlerAttached (session w))) as Hps.
  pose proof (launched_connected k (engine w)
                (disconnectHandlerAttached (session w))) as Hc.
  simpl in Hps, Hc.
  set (e2 := if disconnectHandlerAttached (session w) then _ else _) in *.
  rewrite Hps. destruct k as [|k].
  - simpl. destruct (newPage_connected _ _ Hc) as [[p' e3] Hn]. rewrite Hn.
    destruct (newPage_pages _ _ _ _ Hn) as (_ & Hps' & _).
    rewrite Hps in Hps'. simpl in Hps'.
    intros [= -> <-]. simpl. rewrite Hps'. done.
  - simpl. intros [= <- <-]. simpl. rewrite Hps. simpl.
    split_and!; [done|done|done|]. rewrite length_fmap, length_seq. lia.
Qed.

(** *** Along every run *)

Lemma step_consistent (o : Op) w :
  consistent (session w) → consistent (session (step o w)).
Proof.
  intros Hw. destruct o; simpl;
    eauto using ensureBrowser_consistent, closeBrowser_consistent,
      selectTab_consistent, createNewTab_consistent, closeTab_consistent,
      disconnect_event_consistent.
Qed.

Lemma run_snoc ops (o : Op) w : run (ops ++ [o]) w = step o (run ops w).
Proof. unfold run. by rewrite foldl_app. Qed.

Lemma run_current_open ops :
  wf_engine (engine (run ops initial))
  ∧ consistent (session (run ops initial))
  ∧ current_open (run ops initial).
Proof.
  induction ops as [|o ops IH] using rev_ind.
  - split_and!; [apply wf_initial|apply consistent_cleared|by intros p [=]].
  - rewrite run_snoc. destruct IH as (He & Hc & Ho).
    split_and!; [by apply wf_step|by apply step_consistent
                |by apply current_open_step].
Qed.

(** Along every run in which the awaits of ensureBrowser resolve, a
    current page belongs to the browser the session holds, and as long
    as that browser is connected it is one of its open pages. *)
Lemma run_current_page_open (ops : list Op) p :
  currentPage (session (run ops initial)) = Some p →
  browser (session (run ops initial)) = Some (page_owner p)
  ∧ (is_connected (page_owner p) (engine (run ops initial)) = true →
     p ∈ pages (page_owner p) (engine (run ops initial))
     ∧ isClosed p (engine (run ops initial)) = false).
Proof.
  intros Hp. destruct (run_current_open ops) as (_ & [Hc _] & Ho).
  split; [by apply Hc|]. intros Hconn.
  pose proof (Ho p Hp Hconn) as Hin. split; [done|].
  unfold isClosed. rewrite bool_decide_false; [done|]. by intros Hn.
Qed.

(** *** getAllTabs *)

Import Registry.






End TabRegistryFacts.

(** * More on the evaluate, navigate and screenshot handlers *)

Section HandlerFacts.

Import Evaluate EvaluateRuns.

(** X9. A series of evaluations never removes a listener that was on the
    page before, and adds one listener for every evaluation that was
    rejected and none for the others; a series in which every evaluation
    resolves leaves the listeners exactly as they were. *)
Theorem evaluate_all_adds_one_per_rejection
    (answers : list Evaluation) (ls : list nat) :
  ∃ added,
    evaluate_all answers ls = ls ++ added
    ∧ length added = length (filter (λ a, rejects a = true) answers)
    ∧ Forall (λ l, l ∉ ls) added.
Proof.
  revert ls. induction answers as [|a answers IH]; intros ls.
  - exists []. by rewrite app_nil_r.
  - rewrite evaluate_all_cons. destruct a as [json console|message].
    + destruct (puppeteer_evaluate_resolved json console ls) as [-> _].
      destruct (IH ls) as (added & H1 & H2 & H3).
      exists added. by rewrite filter_cons_False by done.
    + simpl puppeteer_evaluate. unfold page_on. simpl snd.
      destruct (IH (ls ++ [new_closure ls])) as (added & H1 & H2 & H3).
      exists (new_closure ls :: added). rewrite filter_cons_True by done.
      split_and!.
      * rewrite H1. by rewrite <- app_assoc.
      * simpl. by rewrite H2.
      * constructor; [apply new_closure_fresh|].
        eapply Forall_impl; [exact H3|]. simpl. intros l Hl Hin.
        apply Hl. apply elem_of_app. by left.
Qed.

End HandlerFacts.

Section NavigateFacts.

Import Handlers.
Local Open Scope string_scope.

(** X10. puppeteer_navigate reports success exactly when page.goto
    resolves with a response whose HTTP status is below 400; a rejection,
    a missing response and a status of 400 or more all give an error
    result whose text starts with the words Navigation failed. *)
Theorem puppeteer_navigate_success_iff (url : string) (goto : Goto) :
  (isError (puppeteer_navigate url goto) = false
   ↔ ∃ status statusText,
       goto = Resolves (HttpResponse status statusText) ∧ (status < 400)%Z)
  ∧ (isError (puppeteer_navigate url goto) = true
     → ∃ rest, text (puppeteer_navigate url goto)
               = "Navigation failed: " +:+ rest).
Proof.
  destruct goto as [message|[|status statusText]]; unfold puppeteer_navigate.
  - split; [|intros _; by eexists].
    split; [done|]. by intros (? & ? & [=] & _).
  - split; [|intros _; by eexists].
    split; [done|]. by intros (? & ? & [=] & _).
  - destruct (Z.geb_spec status 400).
    + split; [|intros _; by eexists].
      split; [done|]. intros (? & ? & [= <- <-] & ?). lia.
    + split; [|done]. split; [|done]. intros _. by exists status, statusText.
Qed.

Lemma puppeteer_navigate_success_iff_witness :
  ∃ rest, text (puppeteer_navigate "https://example.org/missing"
                  (Resolves (HttpResponse 404 "Not Found")))
          = "Navigation failed: " +:+ rest.
Proof.
  apply (puppeteer_navigate_success_iff "https://example.org/missing"
           (Resolves (HttpResponse 404 "Not Found"))).
  reflexivity.
Defined.



End NavigateFacts.

(** * More on the element extraction *)

Section SelectorFacts.

Import Dom Extraction Whitelist.
Local Open Scope string_scope.

Implicit Types (el : Element) (s : string).

Lemma truthy_app_l s1 s2 : truthy s1 = true → truthy (s1 +:+ s2) = true.
Proof. by destruct s1. Qed.

Lemma truthy_app_r s1 s2 : truthy s2 = true → truthy (s1 +:+ s2) = true.
Proof. destruct s1; [done|]. by intros _. Qed.

Lemma Forall_truthy_when (b : bool) s :
  truthy s = true → Forall (λ x, truthy x = true) (when b s).
Proof. intros Hs. destruct b; repeat constructor. done. Qed.

Lemma length_when (b : bool) s : (length (when b s) ≤ 1)%nat.
Proof. destruct b; simpl; lia. Qed.

Lemma data_selector_truthy (l : list (string * string)) :
  Forall (λ x, truthy x = true) (data_selector l) ∧ (length (data_selector l) ≤ 1)%nat.
Proof.
  induction l as [|[name value] l IH]; simpl; [split; [constructor|lia]|].
  destruct (String.prefix "data-" name && truthy value); [|done].
  split; [|simpl; lia]. repeat constructor.
Qed.

(** Every candidate selector is a non-empty string. *)
Lemma selectors_truthy el : Forall (λ x, truthy x = true) (selectors el).
Proof.
  unfold selectors. repeat apply Forall_app_2.
  - by apply Forall_truthy_when.
  - by apply Forall_truthy_when.
  - apply data_selector_truthy.
  - by apply Forall_truthy_when.
  - apply Forall_truthy_when. apply truthy_app_r. done.
  - destruct (_ && _); [|constructor].
    destruct (decide _); [repeat constructor|].
    destruct (decide _); repeat constructor.
  - repeat constructor. apply truthy_app_r. done.
Qed.

Lemma selectors_fallback_last el :
  last (selectors el)
  = Some (nth_of_type_selector (tagName el) (nth_of_type el)).
Proof. unfold selectors. rewrite !app_assoc. apply last_snoc. Qed.

Lemma selectors_length el : (1 ≤ length (selectors el) ≤ 7)%nat.
Proof.
  unfold selectors. rewrite !length_app. simpl.
  pose proof (length_when (truthy (id el)) ("#" +:+ id el)).
  pose proof (proj2 (data_selector_truthy (Dom.attributes el))).
  repeat match goal with
         | |- context [length (when ?b ?s)] =>
             pose proof (length_when b s);
             generalize dependent (length (when b s)); intros
         end.
  generalize dependent (length (data_selector (Dom.attributes el))). intros.
  destruct (_ && _); [|simpl; lia].
  destruct (decide _); [simpl; lia|]. destruct (decide _); simpl; lia.
Qed.

(** X13. An element with a non-empty id has the selector # followed by
    that id as its primary selector, whatever else it carries. *)
Theorem primary_selector_of_id el :
  truthy (id el) = true →
  selector (describe el) = "#" +:+ id el.
Proof.
  intros Hid. unfold describe. simpl. unfold selectors. rewrite Hid. done.
Qed.

Lemma primary_selector_of_id_witness :
  selector (describe go_element) = "#go".
Proof. exact (primary_selector_of_id go_element eq_refl). Defined.

(** *** The description *)

Lemma js_or_truthy_l (a b : option string) :
  truthy_opt a = true → a ||| b = a.
Proof. intros Ha. unfold js_or. by rewrite Ha. Qed.

Lemma js_or_truthy_r (a b : option string) :
  truthy_opt b = true → truthy_opt (a ||| b) = true.
Proof. intros Hb. unfold js_or. by destruct (truthy_opt a) eqn:Ha. Qed.

Lemma length_slice0 (n : nat) s : (String.length (slice0 n s) ≤ n)%nat.
Proof.
  revert s. induction n as [|n IH]; intros s; [done|].
  destruct s as [|a s]; simpl; [lia|]. specialize (IH s). lia.
Qed.

Lemma truthy_slice0 (n : nat) s :
  truthy s = true → truthy (slice0 (S n) s) = true.
Proof. by destruct s. Qed.

(** X14. The description of a record is never empty.  When the element
    has text, the description is the first 50 characters of the trimmed
    text, whatever aria-label, title or other attributes it carries. *)
Theorem description_never_empty el :
  truthy (description (describe el)) = true
  ∧ (truthy (trim (textContent el)) = true →
     description (describe el) = slice0 50 (trim (textContent el))
     ∧ (String.length (description (describe el)) ≤ 50)%nat).
Proof.
  split.
  - unfold describe. simpl.
    match goal with
    | |- truthy (default _ (?d ||| ?n)) = true =>
        pose proof (js_or_truthy_r d n eq_refl) as H;
        destruct (d ||| n) as [s|]
    end; done.
  - intros Ht.
    assert (Hs : truthy_opt (Some (slice0 50 (trim (textContent el)))) = true)
      by (by apply truthy_slice0).
    pose proof (length_slice0 50 (trim (textContent el))) as Hlen.
    unfold describe. cbn [description].
    remember (slice0 50 (trim (textContent el))) as d eqn:Hd.
    rewrite !(js_or_truthy_l (Some d)) by done. done.
Qed.

Lemma description_never_empty_witness :
  truthy (description (describe go_element)) = true
  ∧ description (describe go_element) = "Go"
  ∧ (String.length (description (describe go_element)) ≤ 50)%nat.
Proof.
  destruct (description_never_empty go_element) as [H1 H2].
  destruct (H2 eq_refl) as [H3 H4]. split_and!; [exact H1|exact H3|exact H4].
Defined.

(** *** The attributes object *)

Lemma elem_of_keep (key : string) (v : option string) (kv : string * string) :
  kv ∈ keep key v ↔ fst kv = key ∧ v = Some (snd kv) ∧ truthy (snd kv) = true.
Proof.
  unfold keep. destruct v as [x|]; simpl.
  - destruct (truthy x) eqn:Hx.
    + rewrite list_elem_of_singleton. destruct kv as [k y]. simpl. split.
      * by intros [= -> ->].
      * by intros (-> & [= ->] & _).
    + split; [by intros ?%elem_of_nil|].
      intros (_ & [= ->] & Ht). congruence.
  - split; [by intros ?%elem_of_nil|]. by intros (_ & [=] & _).
Qed.

(** X15. The attributes object of a record holds exactly the attributes
    href, value, src, action, target, type and name that the element has
    with a non-empty value, each with that value. *)
Theorem attributes_are_the_listed_ones el (key value : string) :
  (key, value) ∈ attributes (describe el)
  ↔ key ∈ attribute_names
    ∧ getAttribute key el = Some value
    ∧ truthy value = true.
Proof.
  unfold describe. simpl. rewrite !elem_of_app, !elem_of_keep. simpl.
  unfold attribute_names. rewrite !elem_of_cons, elem_of_nil. split.
  - intros H. repeat destruct H as [H|H];
      destruct H as (-> & -> & Ht); split_and!; (done || tauto).
  - intros (Hk & Hv & Ht).
    repeat destruct Hk as [->|Hk]; (done || rewrite Hv; tauto).
Qed.

(** *** The data-* selector *)

(** X16. Of the data-* attributes only the first one with a non-empty
    value gives a selector: attributes before it that are not data-*
    attributes or have an empty value are passed over, attributes after
    it are not looked at; without such an attribute there is no data
    selector. *)
Theorem data_selector_takes_first
    (before after : list (string * string)) (name value : string) :
  Forall (λ kv, String.prefix "data-" (fst kv) && truthy (snd kv) = false)
         before →
  String.prefix "data-" name = true →
  truthy value = true →
  data_selector (before ++ (name, value) :: after)
  = ["[" +:+ name +:+ "=" +:+ dq +:+ value +:+ dq +:+ "]"]
  ∧ data_selector before = [].
Proof.
  intros Hb Hn Hv. induction Hb as [|[k v] l Hkv Hb [IH1 IH2]]; simpl.
  - by rewrite Hn, Hv.
  - simpl in Hkv. by rewrite Hkv.
Qed.

Lemma data_selector_takes_first_witness :
  data_selector
    ([("class", "card"); ("data-empty", EmptyString)]
       ++ ("data-id", "7") :: [("data-role", "row")])
  = ["[" +:+ "data-id" +:+ "=" +:+ dq +:+ "7" +:+ dq +:+ "]"]
  ∧ data_selector [("class", "card"); ("data-empty", EmptyString)] = [].
Proof.
  apply (data_selector_takes_first
           [("class", "card"); ("data-empty", EmptyString)]
           [("data-role", "row")] "data-id" "7");
    [repeat constructor|reflexivity|reflexivity].
Defined.

(** *** Raising the bound *)

(** X17. Raising maxElements only adds records at the end: the result
    for a bound is a prefix of the result for any larger bound, for the
    same page and the same includeHidden. *)
Theorem raising_maxElements_extends_the_result
    (includeHidden : option bool) (m m' : Z) (document : Node) :
  (m ≤ m')%Z →
  puppeteer_interactable_elements includeHidden (Some m) document
  `prefix_of`
  puppeteer_interactable_elements includeHidden (Some m') document.
Proof.
  intros Hm. unfold puppeteer_interactable_elements. simpl.
  rewrite !puppeteer_interactable_elements_first_matches.
  unfold first_matches.
  set (found := filter _ (querySelectorAll document)).
  exists (describe <$> drop (Z.to_nat m) (take (Z.to_nat m') found)).
  rewrite <- fmap_app. f_equal.
  rewrite <- (take_drop (Z.to_nat m) (take (Z.to_nat m') found)) at 1.
  f_equal. rewrite take_take. f_equal. lia.
Qed.

Lemma raising_maxElements_extends_the_result_witness :
  puppeteer_interactable_elements None (Some 0%Z) go_page
  `prefix_of` puppeteer_interactable_elements None (Some 5%Z) go_page.
Proof.
  apply (raising_maxElements_extends_the_result None 0 5 go_page). lia.
Defined.

(** *** The nth-of-type index *)

Local Open Scope list_scope.

Lemma children_tags_app (l1 l2 : list Node) :
  children_tags (l1 ++ l2) = children_tags l1 ++ children_tags l2.
Proof. apply omap_app. Qed.

(** Every element of a subtree is listed among the element children of
    its parent, at the position recorded for it. *)
Fixpoint descend_positions (n : Node) :
  ∀ sibs pos, (∀ t, tag_of n = Some t → sibs !! pos = Some t) →
    Forall (λ el, parentChildren el !! childIndex el = Some (tagName el))
           (descend sibs pos n).
Proof.
  destruct n as [t a c ks|d]; intros sibs pos Hpos; simpl; [|constructor].
  constructor; [by apply Hpos|].
  assert (Hgo : ∀ (pre l : list Node), ks = pre ++ l →
    Forall (λ el, parentChildren el !! childIndex el = Some (tagName el))
      ((fix go (l : list Node) (i : nat) {struct l} : list Element :=
          match l with
          | [] => []
          | k :: r =>
              descend (children_tags ks) i k ++
              go r match k with
                   | ElementNode _ _ _ _ => S i
                   | TextNode _ => i
                   end
          end) l (length (children_tags pre)))).
  { intros pre l. revert pre. induction l as [|k r IH]; intros pre Hks;
      [constructor|].
    apply Forall_app. split.
    - apply descend_positions. rewrite Hks, children_tags_app.
      destruct k as [t' a' c' ks'|d']; simpl; [|done].
      intros ? [= <-]. by apply list_lookup_middle.
    - specialize (IH (pre ++ [k])).
      rewrite children_tags_app, length_app in IH.
      destruct k as [t' a' c' ks'|d']; simpl in IH |- *.
      + rewrite Nat.add_1_r in IH. apply IH. by rewrite <- app_assoc.
      + rewrite Nat.add_0_r in IH. apply IH. by rewrite <- app_assoc. }
  exact (Hgo [] ks eq_refl).
Qed.

(** X18. For every element of a document the nth-of-type index is at
    least 1 and at most the number of children of its parent that have
    its tag name, so the fallback selector always addresses a position
    that exists. *)
Theorem nth_of_type_in_range (document : Node) el :
  el ∈ querySelectorAll document →
  (1 ≤ nth_of_type el
   ≤ length (filter (λ t, t = tagName el) (parentChildren el)))%nat.
Proof.
  intros Hin.
  assert (Hpos : parentChildren el !! childIndex el = Some (tagName el)).
  { pose proof (descend_positions document (children_tags [document]) 0)
      as Hall.
    rewrite Forall_forall in Hall. apply Hall; [|done].
    destruct document; [|done]. by intros ? [= <-]. }
  unfold nth_of_type. rewrite Hpos. rewrite decide_True by done.
  split; [lia|].
  rewrite <- (take_drop_middle _ _ _ Hpos) at 2.
  rewrite filter_app, filter_cons_True by done.
  rewrite length_app. simpl. lia.
Qed.

Lemma nth_of_type_in_range_witness :
  (1 ≤ nth_of_type go_element
   ≤ length (filter (λ t, t = tagName go_element)
                    (parentChildren go_element)))%nat.
Proof.
  apply (nth_of_type_in_range go_page go_element).
  do 2 apply list_elem_of_further. apply list_elem_of_here.
Defined.

End SelectorFacts.

(** * The session when awaits are rejected or the browser is gone *)

Section AwaitedFacts.

Import Connection Numbers Awaited.

Implicit Types (w : World) (e : Engine) (b : nat) (p : Page).

Lemma ensureBrowserWith_all_resolve launched w :
  ensureBrowserWith launched all_resolve w = ensureBrowser launched w.
Proof.
  unfold ensureBrowserWith, ensureBrowser.
  destruct (usable_page w); [done|]. destruct launched as [k|]; [|done].
  simpl. destruct (pages _ _); [|done]. by destruct (newPage _ _) as [[p e3]|].
Qed.

Lemma ensureBrowserWith_resolving launched (awaits : Awaits) w :
  pages_resolves awaits && newPage_resolves awaits
    && configure_resolves awaits = true →
  ensureBrowserWith launched awaits w = ensureBrowser launched w.
Proof.
  destruct awaits as [[] [] []]; try done;
    intros _; apply ensureBrowserWith_all_resolve.
Qed.


(** *** The invariant of the session state *)

Lemma length_drop_connection b e : length (drop_connection b e) = length e.
Proof.
  unfold drop_connection. destruct (e !! b); [by rewrite length_insert|done].
Qed.

Lemma length_disconnect_event b w :
  length (engine (disconnect_event b w)) = length (engine w).
Proof.
  unfold disconnect_event. destruct (engine w !! b) as [r|]; [|done].
  destruct (connected r); [|done]. apply length_drop_connection.
Qed.

(** When [browser.pages()] is rejected after a successful launch,
    ensureBrowser throws with the new browser already in the browser
    variable and the current page left as it was. *)
Lemma ensureBrowserWith_pages_rejected (k : nat) (n c : bool) w :
  usable_page w = None →
  ∃ w1,
    ensureBrowserWith (Some k) (MkAwaits false n c) w
    = (Thrown EngineFailure, w1)
    ∧ browser (session w1) = Some (length (engine w))
    ∧ currentPage (session w1) = currentPage (session w).
Proof.
  intros Hu. unfold ensureBrowserWith. rewrite Hu. simpl. by eexists.
Qed.

(** Where the observer is attached, the disconnect event restores the
    invariant, whatever the state was. *)
Lemma observed_disconnect_keeps_invariant b w r :
  engine w !! b = Some r → connected r = true → (0 < observers r)%nat →
  live_consistent (step (Disconnected b) w).
Proof.
  intros Hr Hc Ho. destruct (disconnect_event_observed b w r Hr Hc Ho) as [Hs _].
  split; simpl; rewrite Hs; [by intros q [=]|done].
Qed.

(** C2. The invariant is not preserved.  Take a state that satisfies it
    in which the browser held has no disconnect observer (the second
    browser of C4).  When that browser disconnects, the event changes
    neither the browser handle nor the current page, so the pointer
    stays on a page of a browser that is no longer live.  The next
    ensureBrowser then launches; if [browser.pages()] is rejected it
    throws with the new browser in the browser variable and the current
    page still the old one, a page of another browser. *)
Theorem session_invariant_not_preserved b p w (k : nat) (n c : bool) :
  browser (session w) = Some b →
  currentPage (session w) = Some p →
  page_owner p = b →
  is_connected b (engine w) = true →
  (observers <$> engine w !! b) = Some 0%nat →
  let w1 := step (Disconnected b) w in
  let r := ensureBrowserWith (Some k) (MkAwaits false n c) w1 in
  live_consistent w
  ∧ session w1 = session w
  ∧ is_connected b (engine w1) = false
  ∧ ¬ live_consistent w1
  ∧ fst r = Thrown EngineFailure
  ∧ browser (session (snd r)) = Some (length (engine w))
  ∧ currentPage (session (snd r)) = Some p
  ∧ b ≠ length (engine w)
  ∧ ¬ consistent (session (snd r))
  ∧ ¬ live_consistent (snd r).
Proof.
  intros Hb Hp Ho Hc Hobs w1 r.
  assert (Hs : session w1 = session w).
  { subst w1. simpl. destruct (engine w !! b) as [r0|] eqn:Hr; [|done].
    injection Hobs as Hobs. by eapply disconnect_event_unobserved. }
  assert (Hd : is_connected b (engine w1) = false).
  { subst w1. simpl. unfold disconnect_event. revert Hc.
    unfold is_connected at 1.
    destruct (engine w !! b) as [r0|] eqn:Hr; [|done]. intros ->. simpl.
    apply is_connected_dropped. }
  assert (Hlt : b ≠ length (engine w)).
  { destruct (engine w !! b) as [r0|] eqn:Hr; [|done].
    apply lookup_lt_Some in Hr. lia. }
  assert (Hu : usable_page w1 = None).
  { unfold usable_page. rewrite Hs, Hb, Hp, Hd. done. }
  destruct (ensureBrowserWith_pages_rejected k n c w1 Hu)
    as (w2 & Heq & Hb2 & Hp2).
  subst r. rewrite Heq. simpl.
  assert (Hlen : length (engine w1) = length (engine w))
    by apply length_disconnect_event.
  rewrite Hlen in Hb2. rewrite Hs, Hp in Hp2.
  assert (Hnc : ¬ consistent (session w2)).
  { intros [Hown _]. specialize (Hown p Hp2). rewrite Hb2, Ho in Hown.
    injection Hown as Hown. by apply Hlt. }
  split_and!; try done.
  - split; [|by rewrite Hb]. intros q Hq. rewrite Hq in Hp.
    injection Hp as ->. by rewrite Ho, Hb.
  - intros [Hlive _]. rewrite Hs in Hlive.
    destruct (Hlive p Hp) as [_ Hconn]. rewrite Ho in Hconn. congruence.
  - intros [Hlive _]. apply Hnc. split; [|by rewrite Hb2].
    intros q Hq. by apply Hlive.
Qed.

Lemma session_invariant_not_preserved_witness :
  live_consistent relaunched
  ∧ session second_browser_gone = session relaunched
  ∧ is_connected 1 (engine second_browser_gone) = false
  ∧ ¬ live_consistent second_browser_gone
  ∧ fst (ensureBrowserWith (Some 1%nat) (MkAwaits false true true)
           second_browser_gone) = Thrown EngineFailure
  ∧ browser (session (snd (ensureBrowserWith (Some 1%nat)
                             (MkAwaits false true true)
                             second_browser_gone))) = Some 2%nat
  ∧ currentPage (session (snd (ensureBrowserWith (Some 1%nat)
                                 (MkAwaits false true true)
                                 second_browser_gone)))
    = Some (MkPage 1 0)
  ∧ 1%nat ≠ 2%nat
  ∧ ¬ consistent (session (snd (ensureBrowserWith (Some 1%nat)
                                  (MkAwaits false true true)
                                  second_browser_gone)))
  ∧ ¬ live_consistent (snd (ensureBrowserWith (Some 1%nat)
                              (MkAwaits false true true)
                              second_browser_gone)).
Proof.
  exact (session_invariant_not_preserved 1 (MkPage 1 0) relaunched 1 true true
           eq_refl eq_refl eq_refl eq_refl eq_refl).
Defined.

(** The same run, step by step: the second browser is launched with the
    flag up, disconnects unobserved, and the launch of a third one is
    followed by a rejected [browser.pages()]. *)
Example stale_page_after_rejected_pages :
  let w1 := call (EnsureWith (Some 1%nat) (MkAwaits false true true))
                 second_browser_gone in
  browser (session relaunched) = Some 1%nat
  ∧ currentPage (session relaunched) = Some (MkPage 1 0)
  ∧ browser (session second_browser_gone) = Some 1%nat
  ∧ currentPage (session second_browser_gone) = Some (MkPage 1 0)
  ∧ is_connected 1 (engine second_browser_gone) = false
  ∧ browser (session w1) = Some 2%nat
  ∧ currentPage (session w1) = Some (MkPage 1 0).
Proof. by vm_compute. Qed.


(** *** The page a launch selects *)

Lemma ensureBrowserWith_after_launch (k : nat) (awaits : Awaits) w p w1 :
  usable_page w = None →
  pages_resolves awaits = true →
  (k = 0%nat → newPage_resolves awaits = true) →
  ensureBrowser (Some k) w = (Returned p, w1) →
  ensureBrowserWith (Some k) awaits w
  = (if configure_resolves awaits then Returned p else Thrown EngineFailure,
     w1).
Proof.
  intros Hu Hpr Hnr. unfold ensureBrowserWith, ensureBrowser.
  rewrite Hu, Hpr. cbv beta iota zeta. unfold launch. cbv beta iota zeta.
  pose proof (launched_pages k (engine w)
                (disconnectHandlerAttached (session w))) as Hps.
  simpl in Hps.
  set (e2 := if disconnectHandlerAttached (session w) then _ else _) in *.
  rewrite Hps. destruct k as [|k]; simpl.
  - rewrite Hnr by done. destruct (newPage _ e2) as [[p' e3]|]; [|done].
    intros [= <- <-]. by destruct (configure_resolves awaits).
  - intros [= <- <-]. by destruct (configure_resolves awaits).
Qed.

(** X19. When ensureBrowser launches and [browser.pages()] (and, for a
    browser that starts without a page, [browser.newPage()]) resolves,
    the session holds the new browser and its current page is the first
    tab of that browser: the first of the pages the browser starts with
    or, when it starts with none, the one page ensureBrowser opens, so
    that the new browser has max(1, initial pages) tabs.  That page is
    the page returned; when its configuration is rejected the call
    throws with the page already current. *)
Theorem ensureBrowser_selects_first_tab (k : nat) (awaits : Awaits) w :
  usable_page w = None →
  pages_resolves awaits = true →
  (k = 0%nat → newPage_resolves awaits = true) →
  ∃ p w1,
    ensureBrowserWith (Some k) awaits w
    = (if configure_resolves awaits then Returned p else Thrown EngineFailure,
       w1)
    ∧ browser (session w1) = Some (length (engine w))
    ∧ currentPage (session w1) = Some p
    ∧ currentPage (session w1)
      = pages (length (engine w)) (engine w1) !! 0%nat
    ∧ length (pages (length (engine w)) (engine w1)) = Nat.max 1 k.
Proof.
  intros Hu Hpr Hnr.
  destruct (ensureBrowser_first_tab k w Hu) as (p & w1 & Heq & H).
  exists p, w1. split; [|done]. by apply ensureBrowserWith_after_launch.
Qed.

Lemma ensureBrowser_selects_first_tab_witness :
  ∃ p w1,
    ensureBrowserWith (Some 0%nat) all_resolve initial = (Returned p, w1)
    ∧ browser (session w1) = Some 0%nat
    ∧ currentPage (session w1) = Some p
    ∧ currentPage (session w1) = pages 0 (engine w1) !! 0%nat
    ∧ length (pages 0 (engine w1)) = 1%nat.
Proof.
  exact (ensureBrowser_selects_first_tab 0 all_resolve initial
           eq_refl eq_refl (λ _, eq_refl)).
Defined.

(** *** selectTab with any number *)

(** For an integer, selectTab as the module Connection has it. *)
Lemma selectTabNumber_integer (i : Z) w :
  snd (selectTabNumber (Integer i) w) = snd (selectTab i w).
Proof.
  unfold selectTabNumber, selectTab, out_of_range, negative, at_least,
    at_index, js_index.
  destruct (browser (session w)) as [b|]; [|done]. cbv zeta.
  destruct (Z.ltb_spec i 0); [done|].
  destruct (Z.geb_spec i (Z.of_nat (length (pages b (engine w))))); [done|].
  simpl.
  destruct (lookup_lt_is_Some_2 (pages b (engine w)) (Z.to_nat i)) as [p Hp];
    [lia|].
  by rewrite Hp.
Qed.

Lemma selectTabNumber_not_initialized (x : JsNumber) w :
  browser (session w) = None →
  selectTabNumber x w = (TabThrown TabNotInitialized, w).
Proof. intros Hb. unfold selectTabNumber. by rewrite Hb. Qed.

(** X1. With a browser held, selectTab returns the page at an integer
    index inside the live page enumeration and makes it the current
    page; it throws the out-of-range error, changing nothing, for a
    number below 0 or at or beyond the number of pages, infinite ones
    included.  A number that passes both comparisons without being an
    integer (0.5, or NaN, for which both comparisons are false) is not
    refused: [pages[tabIndex]] is then undefined, the current page is
    set to undefined and undefined is returned without an error. *)
Theorem selectTabNumber_cases w b :
  browser (session w) = Some b →
  let n := length (pages b (engine w)) in
  let cleared := MkWorld (engine w) (set_currentPage None (session w)) in
  (∀ i, 0 ≤ i < Z.of_nat n →
     ∃ p, pages b (engine w) !! Z.to_nat i = Some p
          ∧ selectTabNumber (Integer i) w
            = (TabReturned (Some p),
               MkWorld (engine w) (set_currentPage (Some p) (session w)))
          ∧ selectTab i w
            = (Returned p,
               MkWorld (engine w) (set_currentPage (Some p) (session w))))
  ∧ (∀ i, i < 0 ∨ Z.of_nat n ≤ i →
       selectTabNumber (Integer i) w
       = (TabThrown (TabOutOfRange (Integer i) n), w)
       ∧ selectTabNumber (Between i) w
         = (TabThrown (TabOutOfRange (Between i) n), w))
  ∧ selectTabNumber PosInfinity w
    = (TabThrown (TabOutOfRange PosInfinity n), w)
  ∧ selectTabNumber NegInfinity w
    = (TabThrown (TabOutOfRange NegInfinity n), w)
  ∧ (∀ i, 0 ≤ i < Z.of_nat n →
       selectTabNumber (Between i) w = (TabReturned None, cleared))
  ∧ selectTabNumber NaN w = (TabReturned None, cleared).
Proof.
  intros Hb n cleared. subst n cleared.
  unfold selectTabNumber, negative, at_least, at_index. rewrite Hb. cbv zeta.
  split_and!; try done.
  - intros i Hi. destruct (selectTab_in_range_aux i w b Hb Hi) as (p & Hp & Hs).
    exists p. split_and!; [done| |done].
    destruct (Z.ltb_spec i 0); [lia|].
    destruct (Z.geb_spec i (Z.of_nat (length (pages b (engine w))))); [lia|].
    simpl. unfold js_index. destruct (Z.ltb_spec i 0); [lia|]. by rewrite Hp.
  - intros i Hi.
    destruct (Z.ltb_spec i 0); [done|].
    destruct (Z.geb_spec i (Z.of_nat (length (pages b (engine w)))));
      [done|lia].
  - intros i Hi. destruct (Z.ltb_spec i 0); [lia|].
    by destruct (Z.geb_spec i (Z.of_nat (length (pages b (engine w)))));
      [lia|].
Qed.

Lemma selectTabNumber_cases_witness :
  selectTabNumber (Integer 2) three_tabs
  = (TabReturned (Some (MkPage 0 2)),
     MkWorld (engine three_tabs)
             (set_currentPage (Some (MkPage 0 2)) (session three_tabs)))
  ∧ selectTabNumber (Integer 3) three_tabs
    = (TabThrown (TabOutOfRange (Integer 3) 3), three_tabs)
  ∧ selectTabNumber (Between 0) three_tabs
    = (TabReturned None,
       MkWorld (engine three_tabs) (set_currentPage None (session three_tabs)))
  ∧ selectTabNumber NaN three_tabs
    = (TabReturned None,
       MkWorld (engine three_tabs) (set_currentPage None (session three_tabs))).
Proof.
  destruct (selectTabNumber_cases three_tabs 0%nat eq_refl)
    as (H1 & H2 & _ & _ & H5 & H6).
  destruct (H1 2) as (p & Hp & Hs & _); [vm_compute; split; congruence|].
  vm_compute in Hp. injection Hp as <-.
  split_and!; [exact Hs| | |exact H6].
  - apply (H2 3). right. vm_compute. congruence.
  - apply (H5 0). vm_compute. split; congruence.
Defined.

(** *** Along runs *)

Lemma well_kept_step (o : Op) w : well_kept w → well_kept (step o w).
Proof.
  intros (He & Hc & Ho).
  split_and!; [by apply wf_step|by apply step_consistent
              |by apply current_open_step].
Qed.

Lemma well_kept_cleared w :
  well_kept w →
  well_kept (MkWorld (engine w) (set_currentPage None (session w))).
Proof.
  intros (He & Hc & Ho). split_and!; [done| |by intros p [=]].
  split; [by intros p [=]|done].
Qed.

Lemma well_kept_call (c : Call) w :
  awaits_resolve c = true → well_kept w → well_kept (call c w).
Proof.
  destruct c as [launched awaits|x|o]; simpl; intros Hr Hw.
  - rewrite ensureBrowserWith_resolving by done.
    by apply (well_kept_step (EnsureBrowser launched)).
  - destruct x as [i|i| | |];
      [rewrite selectTabNumber_integer; by apply (well_kept_step (SelectTab i))
      |unfold selectTabNumber; destruct (browser (session w)); [|done];
       cbv zeta; destruct (_ || _); [done|]; by apply well_kept_cleared ..].
  - by apply well_kept_step.
Qed.

Lemma run_calls_snoc (cs : list Call) (c : Call) w :
  run_calls (cs ++ [c]) w = call c (run_calls cs w).
Proof. unfold run_calls. by rewrite foldl_app. Qed.

Lemma run_calls_well_kept (cs : list Call) :
  Forall (λ c, awaits_resolve c = true) cs → well_kept (run_calls cs initial).
Proof.
  induction cs as [|c cs IH] using rev_ind; intros Hcs.
  - split_and!; [apply wf_initial|apply consistent_cleared|by intros p [=]].
  - apply Forall_app in Hcs as [Hcs Hc%Forall_inv].
    rewrite run_calls_snoc. apply well_kept_call; [done|by apply IH].
Qed.

(** X20. Along every sequence of ensureBrowser, closeBrowser, selectTab
    (with any number as index), createNewTab and closeTab calls and
    disconnect events from the initial state, in which no await of
    ensureBrowser is rejected after a successful launch, a current page
    belongs to the browser the session holds and, as long as that browser
    is connected, it is one of its open pages: no operation leaves the
    pointer on a page it has closed.  (With such an await rejected the
    first part fails: see [stale_page_after_rejected_pages].) *)
Theorem current_page_is_open_while_awaits_resolve (cs : list Call) p :
  Forall (λ c, awaits_resolve c = true) cs →
  currentPage (session (run_calls cs initial)) = Some p →
  browser (session (run_calls cs initial)) = Some (page_owner p)
  ∧ (is_connected (page_owner p) (engine (run_calls cs initial)) = true →
     p ∈ pages (page_owner p) (engine (run_calls cs initial))
     ∧ isClosed p (engine (run_calls cs initial)) = false).
Proof.
  intros Hcs Hp.
  destruct (run_calls_well_kept cs Hcs) as (_ & [Hc _] & Ho).
  split; [by apply Hc|]. intros Hconn.
  pose proof (Ho p Hp Hconn) as Hin. split; [done|].
  unfold isClosed. rewrite bool_decide_false; [done|]. by intros Hn.
Qed.

Lemma current_page_is_open_while_awaits_resolve_witness :
  browser (session (run_calls [EnsureWith (Some 1%nat) all_resolve;
                               Plain (CreateNewTab None (GotoResolved None));
                               SelectNumber (Integer 0);
                               Plain (CloseTab 1)] initial)) = Some 0%nat
  ∧ MkPage 0 0
    ∈ pages 0 (engine (run_calls [EnsureWith (Some 1%nat) all_resolve;
                                  Plain (CreateNewTab None (GotoResolved None));
                                  SelectNumber (Integer 0);
                                  Plain (CloseTab 1)] initial))
  ∧ isClosed (MkPage 0 0)
      (engine (run_calls [EnsureWith (Some 1%nat) all_resolve;
                          Plain (CreateNewTab None (GotoResolved None));
                          SelectNumber (Integer 0);
                          Plain (CloseTab 1)] initial)) = false.
Proof.
  destruct (current_page_is_open_while_awaits_resolve
              [EnsureWith (Some 1%nat) all_resolve;
               Plain (CreateNewTab None (GotoResolved None));
               SelectNumber (Integer 0);
               Plain (CloseTab 1)]
              (MkPage 0 0)) as [H1 H2]; [repeat constructor|reflexivity|].
  destruct (H2 eq_refl) as [H3 H4].
  split_and!; [exact H1|exact H3|exact H4].
Defined.

End AwaitedFacts.

(** * The extraction for every bound and every kind of element *)

Section BoundedFacts.

Import Dom Extraction Numbers Bounded.
Local Open Scope string_scope.

Implicit Types (el : Element) (all : list Element) (h : bool) (x : JsNumber).








(** *** The candidate selectors of every kind of element *)

Lemma selectorsOf_string el : selectorsOf true el = selectors el.
Proof. done. Qed.

Lemma selectorsOf_truthy (c : bool) el :
  Forall (λ s, truthy s = true) (selectorsOf c el).
Proof.
  unfold selectorsOf. repeat apply Forall_app_2.
  - by apply Forall_truthy_when.
  - by apply Forall_truthy_when.
  - apply data_selector_truthy.
  - by apply Forall_truthy_when.
  - apply Forall_truthy_when. apply truthy_app_r. done.
  - destruct (_ && _); [|constructor].
    destruct (decide _); [repeat constructor|].
    destruct (decide _); repeat constructor.
  - repeat constructor. apply truthy_app_r. done.
Qed.

Lemma selectorsOf_length (c : bool) el :
  (1 ≤ length (selectorsOf c el) ≤ 7)%nat.
Proof.
  unfold selectorsOf. rewrite !length_app. simpl.
  pose proof (proj2 (data_selector_truthy (Dom.attributes el))).
  repeat match goal with
         | |- context [length (when ?b ?s)] =>
             pose proof (length_when b s);
             generalize dependent (length (when b s)); intros
         end.
  generalize dependent (length (data_selector (Dom.attributes el))). intros.
  destruct (_ && _ && _); [|simpl; lia].
  destruct (decide _); [simpl; lia|]. destruct (decide _); simpl; lia.
Qed.

(** X12. For every element, whether its className is a string (an HTML
    element) or not (an SVG element, for which the class selector is
    skipped), the ranked list of candidate selectors has between one and
    seven entries, none of them empty, and ends with the nth-of-type
    fallback.  The primary selector is its first entry (the tag-name
    fallback after [||] is never used) and the alternatives are its
    second and third entries, so there are at most two and none of the
    three is empty.  For an element whose className is a string these
    are the selector and the alternatives of its record. *)
Theorem selectors_ranked_and_never_empty (classNameIsString : bool) el :
  let sels := selectorsOf classNameIsString el in
  Forall (λ s, truthy s = true) sels
  ∧ (1 ≤ length sels ≤ 7)%nat
  ∧ last sels = Some (nth_of_type_selector (tagName el) (nth_of_type el))
  ∧ selectorOf classNameIsString el :: alternativesOf classNameIsString el
    = take 3 sels
  ∧ truthy (selectorOf classNameIsString el) = true
  ∧ Forall (λ s, truthy s = true) (alternativesOf classNameIsString el)
  ∧ (length (alternativesOf classNameIsString el) ≤ 2)%nat
  ∧ selectorsOf true el = selectors el
  ∧ selectorOf true el = selector (describe el)
  ∧ alternativesOf true el = alternatives (describe el).
Proof.
  intros sels.
  pose proof (selectorsOf_truthy classNameIsString el) as Ht.
  pose proof (selectorsOf_length classNameIsString el) as Hl.
  fold sels in Ht, Hl.
  assert (Hlast : last sels
                  = Some (nth_of_type_selector (tagName el) (nth_of_type el))).
  { subst sels. unfold selectorsOf. rewrite !app_assoc. apply last_snoc. }
  assert (Hsel : selectorOf classNameIsString el
                 :: alternativesOf classNameIsString el = take 3 sels
                 ∧ truthy (selectorOf classNameIsString el) = true).
  { unfold selectorOf, alternativesOf. fold sels.
    destruct sels as [|s l]; [simpl in Hl; lia|].
    apply Forall_cons in Ht as [Hs _]. simpl.
    unfold js_or. simpl. by rewrite Hs. }
  destruct Hsel as [Hsel Hfirst]. destruct Hl as [Hl1 Hl7].
  split_and!; try done.
  - unfold alternativesOf. fold sels. by apply Forall_take, Forall_drop.
  - unfold alternativesOf. rewrite length_take. lia.
Qed.

End BoundedFacts.
